(** * Appointment ledger of the hospital management system

    A shallow embedding of the routes that book, confirm, cancel,
    reschedule and complete appointments, and of the availability store
    they consult:

    - [app/models.py]              the rows ([Appointment], [Treatment], ...)
    - [app/routes/patient.py]      [Patient.book_appointment], [Patient.cancel_appointment],
                                   [Patient.reschedule_appointment]
    - [app/routes/doctor.py]       [Doctor.complete_appointment], [Doctor.cancel_appointment],
                                   [Doctor.confirm_appointment], [Doctor.add_availability], ...
    - [app/routes/admin.py]        [Admin.update_appointment_status]
    - [instance/app/routes/api.py] [Api.appointments_post], [Api.appointment_detail_put],
                                   [Api.appointment_detail_delete]

    Every table is a finite map from the integer primary key to the row.
    A route is a function from the request environment (the user of the
    session, clocks, whether the commit goes through), the request
    arguments and the store to an outcome and the store after the
    request. Each route begins with the test of [login_required], which
    reads the user's row ([is_authenticated]). *)

From Stdlib Require Import ZArith Lia.
From stdpp Require Import gmap strings list fin_maps sorting.

Local Open Scope Z_scope.

(** ** Time

    A [date] is a day number, a [time] the minutes since midnight (the
    forms are parsed with ['%H:%M']), a [datetime] a count of
    microseconds, the resolution of Python's [datetime]. *)

Definition usec_per_minute : Z := 60 * 1000000.
Definition usec_per_day : Z := 1440 * usec_per_minute.

(** [timedelta(hours=h)] *)
Definition timedelta_hours (h : Z) : Z := h * 60 * usec_per_minute.


(** [datetime.combine(d, t)] *)
Definition datetime_combine (d t : Z) : Z := d * usec_per_day + t * usec_per_minute.

(** [dt.date()] *)
Definition date_of (dt : Z) : Z := dt / usec_per_day.

(** ** Rows ([app/models.py]) *)

(** [Appointment]; the primary key [id] is the key of the table. The
    [status] column is a nullable string. *)
Record Appointment := {
  patient_id : nat;
  doctor_id : nat;
  appointment_date : Z;
  appointment_time : Z;
  status : option string;
  reason : option string;
  appointment_type : string;
  priority : string;
  created_at : Z;
  updated_at : Z
}.

(** [DoctorAvailability] *)
Record DoctorAvailability := {
  av_doctor_id : nat;
  available_date : Z;
  start_time : Z;
  end_time : Z;
  is_available : bool;
  av_created_at : Z
}.

(** [Treatment] *)
Record Treatment := {
  appointment_id : nat;
  diagnosis : string;
  prescription : option string;
  notes : option string;
  treatment_date : Z;
  follow_up_required : bool;
  follow_up_date : option Z
}.

(** The tables the ledger reads and writes. Of a [Doctor] row only
    [is_active] is consulted. *)
Record Store := {
  doctors : gmap nat bool;
  availability : gmap nat DoctorAvailability;
  appointments : gmap nat Appointment;
  treatments : gmap nat Treatment
}.

(** ** Request environment *)

(** [get_user_type()] of the three user models. *)
Inductive UserType := admin | doctor | patient.

Record Env := {
  user_type : UserType;   (* current_user.get_user_type() *)
  user_id : nat;          (* current_user.id *)
  now : Z;                (* datetime.now() *)
  utcnow : Z;             (* datetime.utcnow() *)
  db_ok : bool            (* db.session.commit() does not raise *)
}.

(** [datetime.today().date()], [date.today()] *)
Definition today (e : Env) : Z := date_of (now e).

(** [current_user.is_authenticated], the test of [login_required], which
    stands before every route of the ledger. The user models take it
    from [UserMixin], where it is [self.is_active], and [is_active] is
    the column of the user's row, which [load_user] fetches by id. The
    store carries the rows of the doctors: a doctor is logged in when
    the row exists and is active. The rows of patients and
    administrators are outside the store, and a caller of these types
    is taken to be logged in. *)
Definition is_authenticated (e : Env) (s : Store) : bool :=
  match user_type e with
  | doctor => default false (doctors s !! user_id e)
  | _ => true
  end.

(** What a route answers: the flash message or JSON error it sends,
    named by its kind. *)
Inductive Outcome :=
  | Ok                  (* the success message *)
  | LoginRequired       (* login_required: 'Please log in to access this page.' *)
  | Unauthorized        (* 'Access denied. ... privileges required.'; 403 in the API *)
  | NotFound            (* get_or_404, first_or_404 *)
  | AccessDenied        (* 'Access denied' *)
  | DoctorInactive      (* 'Doctor is not available for appointments' *)
  | MissingFields       (* 'Please select date and time', 'All fields are required' *)
  | NoData              (* 'No data provided' *)
  | InvalidFormat       (* 'Invalid date or time format' *)
  | PastDate            (* 'Cannot book appointments for past dates' *)
  | NoAvailability      (* 'Doctor is not available at the selected time' *)
  | SlotTaken           (* 'This time slot is already booked' *)
  | InvalidTransition   (* 'Only booked appointments can be cancelled', ... *)
  | TooLateToCancel     (* 'Cannot cancel appointments less than 2 hours before ...' *)
  | MissingDiagnosis    (* 'Diagnosis is required' *)
  | InvalidRange        (* 'End time must be after start time' *)
  | Overlap             (* 'Availability slot overlaps with existing slot' *)
  | StorageError        (* the commit raised and was rolled back; in the API, what
                           [except Exception] answers after the rollback *)
  | ServerError.        (* an exception no handler of the route catches *)

(** A form or JSON field that the route parses with [strptime]: absent
    or empty, present and rejected by the parser, or parsed. *)
Inductive Field (A : Type) :=
  | Missing
  | Malformed
  | Parsed (a : A).
Arguments Missing {A}.
Arguments Malformed {A}.
Arguments Parsed {A} a.

#[global] Instance Outcome_eq_dec : EqDecision Outcome.
Proof. solve_decision. Defined.

#[global] Instance UserType_eq_dec : EqDecision UserType.
Proof. solve_decision. Defined.

(** ** Queries *)

(** [Model.query.filter(P).first()]: some row that satisfies [P], if
    there is one. *)
Definition query_first {A : Type} (P : nat → A → bool) (m : gmap nat A) : option (nat * A) :=
  List.find (λ r, P r.1 r.2) (map_to_list m).

(** [Model.query.filter(P).count()] *)
Definition query_count {A : Type} (P : nat → A → bool) (m : gmap nat A) : nat :=
  length (List.filter (λ r, P r.1 r.2) (map_to_list m)).

(** The primary key the database gives to the next inserted row. *)
Definition next_id {A : Type} (m : gmap nat A) : nat :=
  S (max_list (elements (dom m))).

(** [db.session.add(row)] *)
Definition add_row {A : Type} (row : A) (m : gmap nat A) : gmap nat A :=
  <[next_id m := row]> m.

(** [status == label] on the nullable column *)
Definition status_is (a : Appointment) (label : string) : bool :=
  bool_decide (status a = Some label).

(** [status in labels] *)
Definition status_in (a : Appointment) (labels : list string) : bool :=
  existsb (status_is a) labels.
Arguments status_in : simpl never.

(** End of a request that reached [db.session.commit()]: the new store
    when the commit goes through, the old one after [rollback()]. *)
Definition commit (e : Env) (old new : Store) : Outcome * Store :=
  if db_ok e then (Ok, new) else (StorageError, old).
Arguments commit : simpl never.

(** Field updates of a loaded row. *)
Definition set_status (st : option string) (upd : Z) (a : Appointment) : Appointment :=
  {| patient_id := patient_id a; doctor_id := doctor_id a;
     appointment_date := appointment_date a; appointment_time := appointment_time a;
     status := st; reason := reason a;
     appointment_type := appointment_type a; priority := priority a;
     created_at := created_at a; updated_at := upd |}.

Definition set_schedule (d t upd : Z) (a : Appointment) : Appointment :=
  {| patient_id := patient_id a; doctor_id := doctor_id a;
     appointment_date := d; appointment_time := t;
     status := status a; reason := reason a;
     appointment_type := appointment_type a; priority := priority a;
     created_at := created_at a; updated_at := upd |}.

Definition set_reason (r : option string) (upd : Z) (a : Appointment) : Appointment :=
  {| patient_id := patient_id a; doctor_id := doctor_id a;
     appointment_date := appointment_date a; appointment_time := appointment_time a;
     status := status a; reason := r;
     appointment_type := appointment_type a; priority := priority a;
     created_at := created_at a; updated_at := upd |}.

Definition with_appointments (s : Store) (m : gmap nat Appointment) : Store :=
  {| doctors := doctors s; availability := availability s;
     appointments := m; treatments := treatments s |}.

Definition with_availability (s : Store) (m : gmap nat DoctorAvailability) : Store :=
  {| doctors := doctors s; availability := m;
     appointments := appointments s; treatments := treatments s |}.

(** The open-slot query shared by the booking and rescheduling routes. *)
Definition covers (did : nat) (d t : Z) (_ : nat) (v : DoctorAvailability) : bool :=
  bool_decide (av_doctor_id v = did) && (available_date v =? d)
  && (start_time v <=? t) && (t <? end_time v) && is_available v.

(** The conflict query of the booking routes. *)
Definition occupies (did : nat) (d t : Z) (_ : nat) (a : Appointment) : bool :=
  bool_decide (doctor_id a = did) && (appointment_date a =? d)
  && (appointment_time a =? t) && status_is a "booked".

(** The conflict query of the rescheduling route, which adds
    [Appointment.id != appointment_id]. *)
Definition occupies_except (self did : nat) (d t : Z) (i : nat) (a : Appointment) : bool :=
  occupies did d t i a && negb (bool_decide (i = self)).

(** The status lists the doctor's routes accept. *)
Definition open_statuses : list string :=
  ["scheduled"; "confirmed"; "pending"; "booked"]%string.

(** ** [app/routes/patient.py] *)

Module Patient.

(** [book_appointment], POST: the row a successful booking inserts. *)
Definition new_appointment (e : Env) (did : nat) (d t : Z) (why : option string) : Appointment :=
  {| patient_id := user_id e; doctor_id := did;
     appointment_date := d; appointment_time := t;
     status := Some "booked"%string; reason := why;
     appointment_type := "consultation"; priority := "routine";
     created_at := utcnow e; updated_at := utcnow e |}.

Definition book_appointment (e : Env) (did : nat) (f_date f_time : Field Z)
    (why : option string) (s : Store) : Outcome * Store :=
  if negb (is_authenticated e s) then (LoginRequired, s) else
  if negb (bool_decide (user_type e = patient)) then (Unauthorized, s) else
  match doctors s !! did with
  | None => (NotFound, s)
  | Some active =>
    if negb active then (DoctorInactive, s) else
    match f_date, f_time with
    | Missing, _ | _, Missing => (MissingFields, s)
    | Malformed, _ | _, Malformed => (InvalidFormat, s)
    | Parsed d, Parsed t =>
      if d <? today e then (PastDate, s) else
      match query_first (covers did d t) (availability s) with
      | None => (NoAvailability, s)
      | Some _ =>
        match query_first (occupies did d t) (appointments s) with
        | Some _ => (SlotTaken, s)
        | None =>
          commit e s (with_appointments s
            (add_row (new_appointment e did d t why) (appointments s)))
        end
      end
    end
  end.

Definition cancel_appointment (e : Env) (id : nat) (s : Store) : Outcome * Store :=
  if negb (is_authenticated e s) then (LoginRequired, s) else
  if negb (bool_decide (user_type e = patient)) then (Unauthorized, s) else
  match appointments s !! id with
  | None => (NotFound, s)
  | Some a =>
    if negb (bool_decide (patient_id a = user_id e)) then (AccessDenied, s) else
    if negb (status_is a "booked") then (InvalidTransition, s) else
    if datetime_combine (appointment_date a) (appointment_time a)
         <=? now e + timedelta_hours 2
    then (TooLateToCancel, s) else
    commit e s (with_appointments s
      (<[id := set_status (Some "cancelled"%string) (utcnow e) a]> (appointments s)))
  end.

(** [reschedule_appointment], POST *)
Definition reschedule_appointment (e : Env) (id : nat) (f_date f_time : Field Z)
    (s : Store) : Outcome * Store :=
  if negb (is_authenticated e s) then (LoginRequired, s) else
  if negb (bool_decide (user_type e = patient)) then (Unauthorized, s) else
  match appointments s !! id with
  | None => (NotFound, s)
  | Some a =>
    if negb (bool_decide (patient_id a = user_id e)) then (AccessDenied, s) else
    if negb (status_is a "booked") then (InvalidTransition, s) else
    match f_date, f_time with
    | Missing, _ | _, Missing => (MissingFields, s)
    | Malformed, _ | _, Malformed => (InvalidFormat, s)
    | Parsed d, Parsed t =>
      if d <? today e then (PastDate, s) else
      match query_first (covers (doctor_id a) d t) (availability s) with
      | None => (NoAvailability, s)
      | Some _ =>
        match query_first (occupies_except id (doctor_id a) d t) (appointments s) with
        | Some _ => (SlotTaken, s)
        | None =>
          commit e s (with_appointments s
            (<[id := set_schedule d t (utcnow e) a]> (appointments s)))
        end
      end
    end
  end.

End Patient.

(** ** [app/routes/doctor.py] *)

Module Doctor.

(** [not diagnosis]: the field is absent or the empty string. *)
Definition no_diagnosis (dg : option string) : bool :=
  match dg with
  | None => true
  | Some d => bool_decide (d = EmptyString)
  end.

(** [if follow_up_date and follow_up_required: treatment.follow_up_date = strptime(...)];
    [None] when [strptime] raises. *)
Definition parse_follow_up (required : bool) (f : Field Z) : option (option Z) :=
  match f with
  | Missing => Some None
  | Malformed => if required then None else Some None
  | Parsed d => if required then Some (Some d) else Some None
  end.

(** [complete_appointment], POST *)
Definition complete_appointment (e : Env) (id : nat) (dg rx nt : option string)
    (required : bool) (f_follow_up : Field Z) (s : Store) : Outcome * Store :=
  if negb (is_authenticated e s) then (LoginRequired, s) else
  if negb (bool_decide (user_type e = doctor)) then (Unauthorized, s) else
  match appointments s !! id with
  | None => (NotFound, s)
  | Some a =>
    if negb (bool_decide (doctor_id a = user_id e)) then (AccessDenied, s) else
    if negb (status_in a open_statuses) then (InvalidTransition, s) else
    if no_diagnosis dg then (MissingDiagnosis, s) else
    match parse_follow_up required f_follow_up with
    | None => (ServerError, s)
    | Some fu =>
      let treatment :=
        {| appointment_id := id; diagnosis := default EmptyString dg;
           prescription := rx; notes := nt; treatment_date := utcnow e;
           follow_up_required := required; follow_up_date := fu |} in
      commit e s
        {| doctors := doctors s; availability := availability s;
           appointments :=
             <[id := set_status (Some "completed"%string) (utcnow e) a]> (appointments s);
           treatments := add_row treatment (treatments s) |}
    end
  end.

Definition cancel_appointment (e : Env) (id : nat) (s : Store) : Outcome * Store :=
  if negb (is_authenticated e s) then (LoginRequired, s) else
  if negb (bool_decide (user_type e = doctor)) then (Unauthorized, s) else
  match appointments s !! id with
  | None => (NotFound, s)
  | Some a =>
    if negb (bool_decide (doctor_id a = user_id e)) then (AccessDenied, s) else
    if negb (status_in a open_statuses) then (InvalidTransition, s) else
    commit e s (with_appointments s
      (<[id := set_status (Some "cancelled"%string) (utcnow e) a]> (appointments s)))
  end.

(** [confirm_appointment]: the row is fetched by [id] and [doctor_id]
    together and its status assigned without a look at the old one.
    [updated_at] has [onupdate=datetime.utcnow], which fires when the
    row is written, that is when the status changes. *)
Definition confirm_appointment (e : Env) (id : nat) (s : Store) : Outcome * Store :=
  if negb (is_authenticated e s) then (LoginRequired, s) else
  if negb (bool_decide (user_type e = doctor)) then (Unauthorized, s) else
  match appointments s !! id with
  | None => (NotFound, s)
  | Some a =>
    if negb (bool_decide (doctor_id a = user_id e)) then (NotFound, s) else
    if status_is a "confirmed" then commit e s s else
    commit e s (with_appointments s
      (<[id := set_status (Some "confirmed"%string) (utcnow e) a]> (appointments s)))
  end.

(** The overlap query of [add_availability]. *)
Definition overlaps (did : nat) (d st en : Z) (_ : nat) (v : DoctorAvailability) : bool :=
  bool_decide (av_doctor_id v = did) && (available_date v =? d)
  && (((start_time v <=? st) && (st <? end_time v))
      || ((start_time v <? en) && (en <=? end_time v))).

Definition add_availability (e : Env) (f_date f_start f_end : Field Z)
    (s : Store) : Outcome * Store :=
  if negb (is_authenticated e s) then (LoginRequired, s) else
  if negb (bool_decide (user_type e = doctor)) then (Unauthorized, s) else
  match f_date, f_start, f_end with
  | Missing, _, _ | _, Missing, _ | _, _, Missing => (MissingFields, s)
  | Malformed, _, _ | _, Malformed, _ | _, _, Malformed => (InvalidFormat, s)
  | Parsed d, Parsed st, Parsed en =>
    if en <=? st then (InvalidRange, s) else
    if d <? today e then (PastDate, s) else
    match query_first (overlaps (user_id e) d st en) (availability s) with
    | Some _ => (Overlap, s)
    | None =>
      commit e s (with_availability s
        (add_row {| av_doctor_id := user_id e; available_date := d;
                    start_time := st; end_time := en;
                    is_available := true; av_created_at := utcnow e |}
                 (availability s)))
    end
  end.

Definition delete_availability (e : Env) (id : nat) (s : Store) : Outcome * Store :=
  if negb (is_authenticated e s) then (LoginRequired, s) else
  if negb (bool_decide (user_type e = doctor)) then (Unauthorized, s) else
  match availability s !! id with
  | None => (NotFound, s)
  | Some v =>
    if negb (bool_decide (av_doctor_id v = user_id e)) then (AccessDenied, s) else
    commit e s (with_availability s (delete id (availability s)))
  end.

End Doctor.

(** ** [app/routes/admin.py] *)

Module Admin.

(** [update_appointment_status]: [data] is the JSON body (an object
    with string values, [None] when the request has none), and the
    status becomes [data.get('status')] whatever the old status was. *)
Definition update_appointment_status (e : Env) (id : nat)
    (data : option (gmap string string)) (s : Store) : Outcome * Store :=
  if negb (is_authenticated e s) then (LoginRequired, s) else
  if negb (bool_decide (user_type e = admin)) then (Unauthorized, s) else
  match appointments s !! id with
  | None => (NotFound, s)
  | Some a =>
    match data with
    | None => (ServerError, s)
    | Some d =>
      if bool_decide (status a = d !! "status"%string) then commit e s s else
      commit e s (with_appointments s
        (<[id := set_status (d !! "status"%string) (utcnow e) a]> (appointments s)))
    end
  end.

End Admin.

(** ** [instance/app/routes/api.py] *)

Module Api.

(** A JSON value that the route hands to [strptime]: a falsy one
    (absent, [null], the empty string, [0], [false], an empty array or
    object), a truthy one that is no string, a string that the parser
    rejects, a string that it parses. *)
Inductive JsonField (A : Type) :=
  | JFalsy
  | JNotString
  | JMalformed
  | JParsed (a : A).
Arguments JFalsy {A}.
Arguments JNotString {A}.
Arguments JMalformed {A}.
Arguments JParsed {A} a.

(** The JSON value of a form field: the string that the form sends. *)
Definition of_form {A : Type} (f : Field A) : JsonField A :=
  match f with
  | Missing => JFalsy
  | Malformed => JMalformed
  | Parsed a => JParsed a
  end.

(** The JSON body of a booking; [doctor_id] is a number. *)
Record Booking := {
  j_doctor_id : option nat;
  j_date : JsonField Z;
  j_time : JsonField Z;
  j_reason : option string
}.

(** [all([doctor_id, ...])] takes the id [0] for absent. *)
Definition truthy_id (o : option nat) : option nat :=
  match o with
  | Some (S n) => Some (S n)
  | _ => None
  end.

(** [appointments], POST; [None] is an absent or empty body. Inside the
    [try], [strptime] raises [ValueError] on a string it rejects, which
    is answered 400, and [TypeError] on a value that is no string, which
    [except Exception] answers like a failed commit: rollback and 500. *)
Definition appointments_post (e : Env) (data : option Booking) (s : Store) : Outcome * Store :=
  if negb (is_authenticated e s) then (LoginRequired, s) else
  if negb (bool_decide (user_type e = patient)) then (Unauthorized, s) else
  match data with
  | None => (NoData, s)
  | Some b =>
    match truthy_id (j_doctor_id b), j_date b, j_time b with
    | None, _, _ | _, JFalsy, _ | _, _, JFalsy => (MissingFields, s)
    | Some did, f_date, f_time =>
      match doctors s !! did with
      | None | Some false => (DoctorInactive, s)
      | Some true =>
        match f_date with
        | JParsed d =>
          match f_time with
          | JParsed t =>
            if d <? today e then (PastDate, s) else
            match query_first (covers did d t) (availability s) with
            | None => (NoAvailability, s)
            | Some _ =>
              match query_first (occupies did d t) (appointments s) with
              | Some _ => (SlotTaken, s)
              | None =>
                commit e s (with_appointments s
                  (add_row (Patient.new_appointment e did d t (j_reason b))
                           (appointments s)))
              end
            end
          | JNotString => (StorageError, s)
          | _ => (InvalidFormat, s)
          end
        | JNotString => (StorageError, s)
        | _ => (InvalidFormat, s)
        end
      end
    end
  end.

(** The ownership test at the head of [appointment_detail]. *)
Definition may_access (e : Env) (a : Appointment) : bool :=
  match user_type e with
  | patient => bool_decide (patient_id a = user_id e)
  | doctor => bool_decide (doctor_id a = user_id e)
  | admin => true
  end.

(** [appointment_detail], PUT *)
Definition appointment_detail_put (e : Env) (id : nat) (data : gmap string string)
    (s : Store) : Outcome * Store :=
  if negb (is_authenticated e s) then (LoginRequired, s) else
  match appointments s !! id with
  | None => (NotFound, s)
  | Some a =>
    if negb (may_access e a) then (AccessDenied, s) else
    if bool_decide (data = ∅) then (NoData, s) else
    let a1 :=
      match data !! "status"%string with
      | Some new_status =>
        if bool_decide (user_type e = doctor ∨ user_type e = admin)
           && bool_decide (new_status ∈ ["completed"; "cancelled"]%string)
           && status_is a "booked"
        then set_status (Some new_status) (utcnow e) a else a
      | None => a
      end in
    let a2 :=
      match data !! "reason"%string with
      | Some r =>
        if bool_decide (user_type e = patient ∨ user_type e = admin)
        then (if bool_decide (reason a1 = Some r) then a1
              else set_reason (Some r) (utcnow e) a1)
        else a1
      | None => a1
      end in
    commit e s (with_appointments s (<[id := a2]> (appointments s)))
  end.

(** [appointment_detail], DELETE *)
Definition appointment_detail_delete (e : Env) (id : nat) (s : Store) : Outcome * Store :=
  if negb (is_authenticated e s) then (LoginRequired, s) else
  match appointments s !! id with
  | None => (NotFound, s)
  | Some a =>
    if negb (may_access e a) then (AccessDenied, s) else
    if status_is a "booked" then
      commit e s (with_appointments s
        (<[id := set_status (Some "cancelled"%string) (utcnow e) a]> (appointments s)))
    else (InvalidTransition, s)
  end.

End Api.

(** ** Requests

    The requests that reach the ledger, one constructor per route and
    method, and the dispatch to the route. *)

Inductive Request :=
  | PatientBook (did : nat) (f_date f_time : Field Z) (why : option string)
  | PatientCancel (id : nat)
  | PatientReschedule (id : nat) (f_date f_time : Field Z)
  | DoctorComplete (id : nat) (dg rx nt : option string) (required : bool) (f_follow_up : Field Z)
  | DoctorCancel (id : nat)
  | DoctorConfirm (id : nat)
  | DoctorAddAvailability (f_date f_start f_end : Field Z)
  | DoctorDeleteAvailability (id : nat)
  | AdminUpdateStatus (id : nat) (data : option (gmap string string))
  | ApiBook (data : option Api.Booking)
  | ApiPut (id : nat) (data : gmap string string)
  | ApiDelete (id : nat).

Definition handle (e : Env) (r : Request) (s : Store) : Outcome * Store :=
  match r with
  | PatientBook did f_date f_time why => Patient.book_appointment e did f_date f_time why s
  | PatientCancel id => Patient.cancel_appointment e id s
  | PatientReschedule id f_date f_time => Patient.reschedule_appointment e id f_date f_time s
  | DoctorComplete id dg rx nt required f =>
      Doctor.complete_appointment e id dg rx nt required f s
  | DoctorCancel id => Doctor.cancel_appointment e id s
  | DoctorConfirm id => Doctor.confirm_appointment e id s
  | DoctorAddAvailability f_date f_start f_end =>
      Doctor.add_availability e f_date f_start f_end s
  | DoctorDeleteAvailability id => Doctor.delete_availability e id s
  | AdminUpdateStatus id data => Admin.update_appointment_status e id data s
  | ApiBook data => Api.appointments_post e data s
  | ApiPut id data => Api.appointment_detail_put e id data s
  | ApiDelete id => Api.appointment_detail_delete e id s
  end.

(** The store after a sequence of requests, each with its environment. *)
Fixpoint run (rs : list (Env * Request)) (s : Store) : Store :=
  match rs with
  | [] => s
  | (e, r) :: rs' => run rs' (handle e r s).2
  end.

(** The outcomes of a sequence of requests. *)
Fixpoint outcomes (rs : list (Env * Request)) (s : Store) : list Outcome :=
  match rs with
  | [] => []
  | (e, r) :: rs' => (handle e r s).1 :: outcomes rs' (handle e r s).2
  end.

(** ** Vocabulary of the statements *)

(** The status of appointment [id], when the row exists. *)
Definition status_of (s : Store) (id : nat) : option (option string) :=
  status <$> appointments s !! id.

(** The key the conflict queries compare. *)
Definition triple (a : Appointment) : nat * Z * Z :=
  (doctor_id a, appointment_date a, appointment_time a).

(** [datetime.combine(appointment.appointment_date, appointment.appointment_time)] *)
Definition scheduled_at (a : Appointment) : Z :=
  datetime_combine (appointment_date a) (appointment_time a).

(** The two final statuses. *)
Definition terminal (a : Appointment) : Prop :=
  status a = Some "completed"%string ∨ status a = Some "cancelled"%string.

(** Requests on appointment [id] whose route tests the status before it
    writes: the cancel and reschedule of the patient, the complete and
    cancel of the doctor, the DELETE of the API. *)
Definition status_guarded (id : nat) (r : Request) : bool :=
  match r with
  | PatientCancel i | PatientReschedule i _ _
  | DoctorComplete i _ _ _ _ _ | DoctorCancel i
  | ApiDelete i => bool_decide (i = id)
  | _ => false
  end.

(** The caller passes the login, role and ownership tests of the
    route. *)
Definition admitted (e : Env) (s : Store) (r : Request) (a : Appointment) : bool :=
  match r with
  | PatientCancel _ | PatientReschedule _ _ _ =>
      bool_decide (user_type e = patient) && bool_decide (patient_id a = user_id e)
  | DoctorComplete _ _ _ _ _ _ | DoctorCancel _ =>
      is_authenticated e s
      && bool_decide (user_type e = doctor) && bool_decide (doctor_id a = user_id e)
  | ApiDelete _ => is_authenticated e s && Api.may_access e a
  | _ => false
  end.

(** Number of [Treatment] rows that reference appointment [id]. *)
Definition treatments_of (id : nat) (s : Store) : nat :=
  query_count (λ _ t, bool_decide (appointment_id t = id)) (treatments s).

(** The number of treatments the table [m] calls for at [id]. *)
Definition expected_treatments (m : gmap nat Appointment) (id : nat) : nat :=
  match m !! id with
  | Some a => if status_is a "completed" then 1%nat else 0%nat
  | None => 0%nat
  end.

(** One treatment for each completed appointment, none for any other
    appointment nor for an id without a row. *)
Definition treatment_invariant (s : Store) : Prop :=
  ∀ id, treatments_of id s = expected_treatments (appointments s) id.

(** [status == 'completed'] of the row [id], if there is one. *)
Definition completed_at (s : Store) (id : nat) : bool :=
  match appointments s !! id with
  | Some a => status_is a "completed"
  | None => false
  end.

(** The requests that, sent to the store [s], move a row into or out of
    'completed' without a look at the treatments: a status update of the
    administrator that posts 'completed' for a row that is not completed
    or another status for a completed row, a PUT of the API by a doctor
    or an administrator that posts 'completed' for a booked row, the
    confirm of a completed row. *)
Definition skips_treatment (e : Env) (r : Request) (s : Store) : bool :=
  match r with
  | AdminUpdateStatus id (Some data) =>
      match appointments s !! id with
      | Some a =>
          negb (bool_decide
                  (status_is a "completed"
                   = bool_decide (data !! "status"%string = Some "completed"%string)))
      | None => false
      end
  | ApiPut id data =>
      negb (bool_decide (user_type e = patient))
      && bool_decide (data !! "status"%string = Some "completed"%string)
      && match appointments s !! id with
         | Some a => status_is a "booked"
         | None => false
         end
  | DoctorConfirm id => completed_at s id
  | _ => false
  end.

(** No request of the sequence, sent to the store it meets, is one of
    these. *)
Fixpoint keeps_treatments (rs : list (Env * Request)) (s : Store) : bool :=
  match rs with
  | [] => true
  | (e, r) :: rs' => negb (skips_treatment e r s) && keeps_treatments rs' (handle e r s).2
  end.

(** ** Scenarios

    A clinic with the active doctor 7, who opens [09:00, 10:00) on day
    101; the requests are sent on day 100 at 08:00. *)

Module Scenario.

Definition clinic : Store :=
  {| doctors := {[ 7%nat := true ]}; availability := ∅;
     appointments := ∅; treatments := ∅ |}.

Definition day100_0800 : Z := datetime_combine 100 480.

Definition as_user (u : UserType) (i : nat) (clock : Z) : Env :=
  {| user_type := u; user_id := i; now := clock; utcnow := clock; db_ok := true |}.

Definition open_0900_1000 : Env * Request :=
  (as_user doctor 7 day100_0800,
   DoctorAddAvailability (Parsed 101) (Parsed 540) (Parsed 600)).

Definition book_0900 (who : nat) : Env * Request :=
  (as_user patient who day100_0800,
   PatientBook 7%nat (Parsed 101) (Parsed 540) (Some "checkup"%string)).

Definition confirm (id : nat) : Env * Request :=
  (as_user doctor 7 day100_0800, DoctorConfirm id).

Definition complete_flu (id : nat) : Env * Request :=
  (as_user doctor 7 day100_0800,
   DoctorComplete id (Some "flu"%string) None None false Missing).

(** Patient 1 books 09:00, the doctor confirms, patient 2 books 09:00. *)
Definition book_confirm_book : list (Env * Request) :=
  [open_0900_1000; book_0900 1; confirm 1; book_0900 2].

(** Appointment 1 of patient 1, booked. *)
Definition booked_store : Store := run [open_0900_1000; book_0900 1] clinic.

(** Appointment 1 of patient 1, confirmed by the doctor. *)
Definition confirmed_store : Store := run [open_0900_1000; book_0900 1; confirm 1] clinic.

(** Appointment 1 of patient 1, completed with its treatment. *)
Definition completed_store : Store :=
  run [open_0900_1000; book_0900 1; complete_flu 1] clinic.

(** The doctor opens [10:00, 11:00) and then [09:00, 12:00) on day 101. *)
Definition nested_slots : list (Env * Request) :=
  [(as_user doctor 7 day100_0800,
    DoctorAddAvailability (Parsed 101) (Parsed 600) (Parsed 660));
   (as_user doctor 7 day100_0800,
    DoctorAddAvailability (Parsed 101) (Parsed 540) (Parsed 720))].

(** A body [{"status": label}]. *)
Definition status_body (label : string) : gmap string string :=
  {[ "status"%string := label ]}.

End Scenario.

(** ** Further code of the cited files *)


(** [toggle_doctor_status] ([app/routes/admin.py]) *)
Definition toggle_doctor_status (e : Env) (did : nat) (s : Store) : Outcome * Store :=
  if negb (is_authenticated e s) then (LoginRequired, s) else
  if negb (bool_decide (user_type e = admin)) then (Unauthorized, s) else
  match doctors s !! did with
  | None => (NotFound, s)
  | Some active =>
    commit e s
      {| doctors := <[did := negb active]> (doctors s); availability := availability s;
         appointments := appointments s; treatments := treatments s |}
  end.

(** A calendar date with the attributes [year], [month], [day]. *)
Record CalendarDate := { year : Z; month : Z; day : Z }.

(** The tuple comparison [(a.month, a.day) < (b.month, b.day)]. *)
Definition month_day_lt (a b : CalendarDate) : bool :=
  (month a <? month b) || ((month a =? month b) && (day a <? day b)).

(** [Patient.age] ([app/models.py]); a bool subtracts as 0 or 1. *)
Definition age (date_of_birth : option CalendarDate) (today : CalendarDate) : option Z :=
  match date_of_birth with
  | Some dob => Some (year today - year dob - (if month_day_lt today dob then 1 else 0))
  | None => None
  end.

(** What the template filter [age] is given: nothing, a string, a date
    or a datetime. *)
Inductive BirthDate :=
  | BirthNone
  | BirthStr (f : Field CalendarDate)
  | BirthDay (d : CalendarDate)
  | BirthDateTime (d : CalendarDate) (time_of_day : Z).

(** [calculate_age] ([instance/app/__init__.py]) *)
Definition calculate_age (birth_date : BirthDate) (today : CalendarDate) : option Z :=
  let birth :=
    match birth_date with
    | BirthNone => None
    | BirthStr (Parsed d) => Some d
    | BirthStr _ => None
    | BirthDay d => Some d
    | BirthDateTime d _ => Some d
    end in
  match birth with
  | None => None
  | Some b =>
    let years := year today - year b in
    if (month today <? month b) || ((month today =? month b) && (day today <? day b))
    then Some (years - 1) else Some years
  end.

(** The order of [date] values: year, then month, then day. *)
Definition date_le (a b : CalendarDate) : Prop :=
  year a < year b
  ∨ (year a = year b ∧ (month a < month b ∨ (month a = month b ∧ day a ≤ day b))).

(** The day and month of [dob] in the year [n] years later. *)
Definition birthday (dob : CalendarDate) (n : Z) : CalendarDate :=
  {| year := year dob + n; month := month dob; day := day dob |}.

(** [ORDER BY appointment_date DESC, appointment_time DESC] *)
Definition later_first (r1 r2 : nat * Appointment) : Prop :=
  appointment_date r2.2 < appointment_date r1.2
  ∨ (appointment_date r1.2 = appointment_date r2.2
     ∧ appointment_time r2.2 ≤ appointment_time r1.2).

#[global] Instance later_first_dec : RelDecision later_first.
Proof. intros r1 r2. unfold later_first. apply _. Defined.


(** [if status: query = query.filter(Appointment.status == status)] *)
Definition passes_status (status_filter : option string) (a : Appointment) : bool :=
  match status_filter with
  | None => true
  | Some f => bool_decide (f = EmptyString) || status_is a f
  end.

(** [if date_filter: query = query.filter(func.date(appointment_date) == filter_date)] *)
Definition passes_date (date_filter : Field Z) (a : Appointment) : bool :=
  match date_filter with
  | Parsed d => appointment_date a =? d
  | _ => true
  end.


(** The row an API PUT writes back: the two [let]s of
    [Api.appointment_detail_put]. *)
Definition put_row (e : Env) (data : gmap string string) (a : Appointment) : Appointment :=
  let a1 :=
    match data !! "status"%string with
    | Some new_status =>
      if bool_decide (user_type e = doctor ∨ user_type e = admin)
         && bool_decide (new_status ∈ ["completed"; "cancelled"]%string)
         && status_is a "booked"
      then set_status (Some new_status) (utcnow e) a else a
    | None => a
    end in
  match data !! "reason"%string with
  | Some r =>
    if bool_decide (user_type e = patient ∨ user_type e = admin)
    then (if bool_decide (reason a1 = Some r) then a1
          else set_reason (Some r) (utcnow e) a1)
    else a1
  | None => a1
  end.

(** ** The doctor's list of appointments ([app/routes/doctor.py]) *)

(** What the template of [appointments] is given. *)
Record DoctorPage := {
  page_rows : list (nat * Appointment);
  today_count : nat;
  scheduled_count : nat;
  completed_count : nat;
  cancelled_count : nat
}.

(** [sum(1 for apt in appointments if test(apt))] *)
Definition count_rows (test : Appointment → bool) (rows : list (nat * Appointment)) : nat :=
  length (List.filter (λ r, test r.2) rows).

(** [appointments]; [inl] is the refusal of the decorators or the
    answer 500 to a date that [strptime] rejects. *)
Definition doctor_appointments (e : Env) (status_filter : option string)
    (date_filter : Field Z) (s : Store) : Outcome + DoctorPage :=
  if negb (is_authenticated e s) then inl LoginRequired else
  if negb (bool_decide (user_type e = doctor)) then inl Unauthorized else
  match date_filter with
  | Malformed => inl ServerError
  | _ =>
    let rows :=
      merge_sort later_first
        (List.filter
           (λ r, bool_decide (doctor_id r.2 = user_id e)
                 && passes_status status_filter r.2 && passes_date date_filter r.2)
           (map_to_list (appointments s))) in
    inr {| page_rows := rows;
           today_count := count_rows (λ a, appointment_date a =? today e) rows;
           scheduled_count := count_rows (λ a, status_in a open_statuses) rows;
           completed_count := count_rows (λ a, status_is a "completed") rows;
           cancelled_count := count_rows (λ a, status_is a "cancelled") rows |}
  end.

(** ** Patient accounts ([instance/app/routes/auth.py], [app/routes/admin.py]) *)

Section Accounts.

(** [werkzeug.security.generate_password_hash], a library function
    taken as given. *)
Variable generate_password_hash : string → string.

(** The columns of [Patient] ([app/models.py]). *)
Record PatientRow := {
  username : string;
  email : string;
  password_hash : string;
  full_name : string;
  phone : option string;
  date_of_birth : option Z;
  gender : option string;
  address : option string;
  emergency_contact : option string;
  blood_group : option string;
  allergies : option string;
  patient_created_at : Z;
  patient_is_active : bool
}.

(** The fields of the registration form, as [request.form.get] gives
    them. *)
Record PatientForm := {
  f_username : option string;
  f_email : option string;
  f_full_name : option string;
  f_password : option string;
  f_confirm_password : option string;
  f_phone : option string;
  f_date_of_birth : Field Z;
  f_gender : option string;
  f_address : option string;
  f_emergency_contact : option string;
  f_blood_group : option string;
  f_allergies : option string
}.

(** What the account routes answer. *)
Inductive AccountOutcome :=
  | Registered          (* the success message *)
  | AlreadyLoggedIn     (* redirect of a logged-in user *)
  | AdminRequired       (* the decorator of the admin routes *)
  | RequiredMissing     (* 'Please fill in all required fields' *)
  | PasswordMismatch    (* 'Passwords do not match' *)
  | PasswordTooShort    (* 'Password must be at least 6 characters long' *)
  | UsernameExists      (* 'Username already exists' *)
  | EmailExists         (* 'Email already exists' *)
  | BadDate             (* strptime raises, no handler *)
  | NotSaved.           (* the commit raised and was rolled back *)

(** A continuation byte 10xxxxxx of UTF-8. *)
Definition continuation (c : Ascii.ascii) : bool :=
  match c with
  | Ascii.Ascii _ _ _ _ _ _ b6 b7 => b7 && negb b6
  end.

(** [len(s)] of a Python [str] that is held as its UTF-8 bytes: the
    number of bytes that begin a character, that is of all bytes but
    the continuation bytes. *)
Fixpoint py_len (s : string) : nat :=
  match s with
  | EmptyString => 0%nat
  | String c s' => ((if continuation c then 0 else 1) + py_len s')%nat
  end.

(** A form field that [all([...])] takes for present. *)
Definition filled (o : option string) : option string :=
  match o with
  | Some v => if bool_decide (v = EmptyString) then None else Some v
  | None => None
  end.

(** [Patient.query.filter_by(username=u).first()] is not [None]. *)
Definition username_taken (u : string) (t : gmap nat PatientRow) : bool :=
  bool_decide (is_Some (query_first (λ _ p, bool_decide (username p = u)) t)).

Definition email_taken (m : string) (t : gmap nat PatientRow) : bool :=
  bool_decide (is_Some (query_first (λ _ p, bool_decide (email p = m)) t)).

(** The row both routes build; [date_of_birth] is set only from a
    filled field. *)
Definition new_patient (utc : Z) (u m n pw : string) (dob : option Z) (f : PatientForm)
    (allergy : option string) : PatientRow :=
  {| username := u; email := m; password_hash := generate_password_hash pw;
     full_name := n; phone := f_phone f; date_of_birth := dob;
     gender := f_gender f; address := f_address f;
     emergency_contact := f_emergency_contact f; blood_group := f_blood_group f;
     allergies := allergy; patient_created_at := utc; patient_is_active := true |}.

(** [if date_of_birth: patient.date_of_birth = strptime(...)] *)
Definition parse_birth (f : Field Z) : option (option Z) :=
  match f with
  | Missing => Some None
  | Malformed => None
  | Parsed d => Some (Some d)
  end.

(** [register], POST ([auth.py]) *)
Definition register (logged_in : bool) (utc : Z) (commit_ok : bool) (f : PatientForm)
    (t : gmap nat PatientRow) : AccountOutcome * gmap nat PatientRow :=
  if logged_in then (AlreadyLoggedIn, t) else
  match filled (f_username f), filled (f_email f), filled (f_full_name f),
        filled (f_password f), filled (f_confirm_password f) with
  | Some u, Some m, Some n, Some pw, Some pw2 =>
    if negb (bool_decide (pw = pw2)) then (PasswordMismatch, t) else
    if (py_len pw <? 6)%nat then (PasswordTooShort, t) else
    if username_taken u t then (UsernameExists, t) else
    if email_taken m t then (EmailExists, t) else
    match parse_birth (f_date_of_birth f) with
    | None => (BadDate, t)
    | Some dob =>
      if commit_ok then (Registered, add_row (new_patient utc u m n pw dob f (f_allergies f)) t)
      else (NotSaved, t)
    end
  | _, _, _, _, _ => (RequiredMissing, t)
  end.

(** [add_patient] ([admin.py]); the form has no confirmation and no
    allergies field, and the route no test of the password's length. *)
Definition add_patient (is_admin : bool) (utc : Z) (commit_ok : bool) (f : PatientForm)
    (t : gmap nat PatientRow) : AccountOutcome * gmap nat PatientRow :=
  if negb is_admin then (AdminRequired, t) else
  match filled (f_username f), filled (f_email f), filled (f_full_name f),
        filled (f_password f) with
  | Some u, Some m, Some n, Some pw =>
    if username_taken u t then (UsernameExists, t) else
    if email_taken m t then (EmailExists, t) else
    match parse_birth (f_date_of_birth f) with
    | None => (BadDate, t)
    | Some dob =>
      if commit_ok then (Registered, add_row (new_patient utc u m n pw dob f None) t)
      else (NotSaved, t)
    end
  | _, _, _, _ => (RequiredMissing, t)
  end.

(** No two accounts share a username or an email. *)
Definition accounts_unique (t : gmap nat PatientRow) : Prop :=
  ∀ i j p q, t !! i = Some p → t !! j = Some q →
             username p = username q ∨ email p = email q → i = j.

End Accounts.

(** A visitor's registration form, with a password of eight characters
    and with one of three. *)
Module AccountScenario.

Definition alice (pw : string) : PatientForm :=
  {| f_username := Some "alice"%string; f_email := Some "alice@example.org"%string;
     f_full_name := Some "Alice Wilson"%string;
     f_password := Some pw; f_confirm_password := Some pw;
     f_phone := None; f_date_of_birth := Parsed 1000;
     f_gender := None; f_address := None; f_emergency_contact := None;
     f_blood_group := None; f_allergies := None |}.

Definition bob (pw : string) : PatientForm :=
  {| f_username := Some "bob"%string; f_email := Some "bob@example.org"%string;
     f_full_name := Some "Bob Hale"%string;
     f_password := Some pw; f_confirm_password := Some pw;
     f_phone := None; f_date_of_birth := Missing;
     f_gender := None; f_address := None; f_emergency_contact := None;
     f_blood_group := None; f_allergies := None |}.

(** The letter e with an acute accent, two bytes in UTF-8. *)
Definition e_acute : string :=
  String (Ascii.ascii_of_nat 195) (String (Ascii.ascii_of_nat 169) EmptyString).

(** A stand-in for the library's hash function. *)
Definition tagged_hash (pw : string) : string := ("hash:" +:+ pw)%string.

End AccountScenario.

(** ** What a request can do to the store

    [Bookable]: the guards a booking passes before it inserts. *)
Definition Bookable (e : Env) (s : Store) (did : nat) (d t : Z) : Prop :=
  user_type e = patient ∧ db_ok e = true
  ∧ doctors s !! did = Some true
  ∧ today e ≤ d
  ∧ (∃ k v, availability s !! k = Some v ∧ covers did d t k v = true)
  ∧ (∀ j b, appointments s !! j = Some b → occupies did d t j b = false).

(** [Effect e s r (o, s')]: the request [r] sent in the environment [e]
    to the store [s] may answer [o] and leave [s']. A request that does
    not answer success leaves the store; each successful one writes what
    its constructor says, under the guards it carries. *)
Inductive Effect (e : Env) (s : Store) : Request → Outcome * Store → Prop :=
  | eff_fail r o : o ≠ Ok → Effect e s r (o, s)
  | eff_book did d t why :
      Bookable e s did d t →
      Effect e s (PatientBook did (Parsed d) (Parsed t) why)
        (Ok, with_appointments s
               (add_row (Patient.new_appointment e did d t why) (appointments s)))
  | eff_api_book b did d t :
      Api.j_doctor_id b = Some did →
      Api.j_date b = Api.JParsed d → Api.j_time b = Api.JParsed t →
      Bookable e s did d t →
      Effect e s (ApiBook (Some b))
        (Ok, with_appointments s
               (add_row (Patient.new_appointment e did d t (Api.j_reason b)) (appointments s)))
  | eff_patient_cancel id a :
      user_type e = patient → appointments s !! id = Some a →
      patient_id a = user_id e → status a = Some "booked"%string →
      now e + timedelta_hours 2 < scheduled_at a →
      Effect e s (PatientCancel id)
        (Ok, with_appointments s
               (<[id := set_status (Some "cancelled"%string) (utcnow e) a]> (appointments s)))
  | eff_reschedule id a d t :
      user_type e = patient → appointments s !! id = Some a →
      patient_id a = user_id e → status a = Some "booked"%string →
      today e ≤ d →
      (∃ k v, availability s !! k = Some v ∧ covers (doctor_id a) d t k v = true) →
      (∀ j b, appointments s !! j = Some b →
              occupies_except id (doctor_id a) d t j b = false) →
      Effect e s (PatientReschedule id (Parsed d) (Parsed t))
        (Ok, with_appointments s
               (<[id := set_schedule d t (utcnow e) a]> (appointments s)))
  | eff_complete id a dg rx nt required f fu :
      is_authenticated e s = true → user_type e = doctor → appointments s !! id = Some a →
      doctor_id a = user_id e → status_in a open_statuses = true →
      Doctor.no_diagnosis dg = false →
      Doctor.parse_follow_up required f = Some fu →
      Effect e s (DoctorComplete id dg rx nt required f)
        (Ok, {| doctors := doctors s; availability := availability s;
                appointments :=
                  <[id := set_status (Some "completed"%string) (utcnow e) a]> (appointments s);
                treatments :=
                  add_row {| appointment_id := id; diagnosis := default EmptyString dg;
                             prescription := rx; notes := nt; treatment_date := utcnow e;
                             follow_up_required := required; follow_up_date := fu |}
                          (treatments s) |})
  | eff_doctor_cancel id a :
      is_authenticated e s = true → user_type e = doctor → appointments s !! id = Some a →
      doctor_id a = user_id e → status_in a open_statuses = true →
      Effect e s (DoctorCancel id)
        (Ok, with_appointments s
               (<[id := set_status (Some "cancelled"%string) (utcnow e) a]> (appointments s)))
  | eff_confirm id a :
      is_authenticated e s = true → user_type e = doctor → appointments s !! id = Some a →
      doctor_id a = user_id e → status a ≠ Some "confirmed"%string →
      Effect e s (DoctorConfirm id)
        (Ok, with_appointments s
               (<[id := set_status (Some "confirmed"%string) (utcnow e) a]> (appointments s)))
  | eff_confirm_again id a :
      is_authenticated e s = true → user_type e = doctor → appointments s !! id = Some a →
      doctor_id a = user_id e → status a = Some "confirmed"%string →
      Effect e s (DoctorConfirm id) (Ok, s)
  | eff_add_slot d st en :
      is_authenticated e s = true → user_type e = doctor → st < en → today e ≤ d →
      (∀ k v, availability s !! k = Some v →
              Doctor.overlaps (user_id e) d st en k v = false) →
      Effect e s (DoctorAddAvailability (Parsed d) (Parsed st) (Parsed en))
        (Ok, with_availability s
               (add_row {| av_doctor_id := user_id e; available_date := d;
                           start_time := st; end_time := en;
                           is_available := true; av_created_at := utcnow e |}
                        (availability s)))
  | eff_delete_slot id v :
      is_authenticated e s = true → user_type e = doctor → availability s !! id = Some v →
      av_doctor_id v = user_id e →
      Effect e s (DoctorDeleteAvailability id)
        (Ok, with_availability s (delete id (availability s)))
  | eff_admin id a data :
      user_type e = admin → appointments s !! id = Some a →
      status a ≠ data !! "status"%string →
      Effect e s (AdminUpdateStatus id (Some data))
        (Ok, with_appointments s
               (<[id := set_status (data !! "status"%string) (utcnow e) a]> (appointments s)))
  | eff_admin_again id a data :
      user_type e = admin → appointments s !! id = Some a →
      status a = data !! "status"%string →
      Effect e s (AdminUpdateStatus id (Some data)) (Ok, s)
  | eff_put id a data :
      is_authenticated e s = true → appointments s !! id = Some a →
      Api.may_access e a = true → data ≠ ∅ →
      Effect e s (ApiPut id data)
        (Ok, with_appointments s (<[id := put_row e data a]> (appointments s)))
  | eff_api_delete id a :
      is_authenticated e s = true → appointments s !! id = Some a →
      Api.may_access e a = true → status a = Some "booked"%string →
      Effect e s (ApiDelete id)
        (Ok, with_appointments s
               (<[id := set_status (Some "cancelled"%string) (utcnow e) a]> (appointments s))).

(** ** Invariants of the ledger *)

(** At most one row with the status 'booked' on a triple. *)
Definition booked_unique (s : Store) : Prop :=
  ∀ i j a b,
    appointments s !! i = Some a → appointments s !! j = Some b →
    status a = Some "booked"%string → status b = Some "booked"%string →
    triple a = triple b → i = j.

(** Every stored slot ends after it starts. *)
Definition slots_well_formed (s : Store) : Prop :=
  ∀ k v, availability s !! k = Some v → start_time v < end_time v.

(** The four labels the routes write. *)
Definition written_statuses : list string :=
  ["booked"; "confirmed"; "completed"; "cancelled"]%string.

(** Every row carries one of the written labels. *)
Definition statuses_written (s : Store) : Prop :=
  ∀ id a, appointments s !! id = Some a → status_in a written_statuses = true.

(** The status update of the administrator. *)
Definition is_admin_update (r : Request) : bool :=
  match r with
  | AdminUpdateStatus _ _ => true
  | _ => false
  end.

(** The appointment a request is about. *)
Definition target (r : Request) : option nat :=
  match r with
  | PatientCancel id | PatientReschedule id _ _
  | DoctorComplete id _ _ _ _ _ | DoctorCancel id | DoctorConfirm id
  | AdminUpdateStatus id _ | ApiPut id _ | ApiDelete id => Some id
  | _ => None
  end.

(** The columns no route assigns after the insert. *)
Definition identity_columns (a : Appointment) : nat * nat * Z * string * string :=
  (patient_id a, doctor_id a, created_at a, appointment_type a, priority a).

(** * Properties *)

(** ** Queries and inserts *)

Lemma filter_length_Permutation {B : Type} (f : B → bool) (l1 l2 : list B) :
  l1 ≡ₚ l2 → length (List.filter f l1) = length (List.filter f l2).
Proof.
  induction 1 as [|x l l' _ IH|x y l|l l' l'' _ IH1 _ IH2]; simpl.
  - done.
  - destruct (f x); simpl; by rewrite IH.
  - by destruct (f x), (f y).
  - by rewrite IH1.
Qed.

Section Queries.
Context {A : Type}.
Implicit Types (P : nat → A → bool) (m : gmap nat A).

Lemma query_first_None P m :
  query_first P m = None ↔ ∀ i a, m !! i = Some a → P i a = false.
Proof.
  unfold query_first. split.
  - intros Hnone i a Hia.
    apply (find_none _ _ Hnone (i, a)).
    apply list_elem_of_In, elem_of_map_to_list, Hia.
  - intros Hall. destruct (find _ _) as [[i a]|] eqn:Hfind; [|done].
    apply find_some in Hfind as [Hin HP]. simpl in HP.
    apply list_elem_of_In, elem_of_map_to_list in Hin.
    rewrite (Hall i a Hin) in HP. done.
Qed.

Lemma query_first_Some P m r :
  query_first P m = Some r → m !! r.1 = Some r.2 ∧ P r.1 r.2 = true.
Proof.
  unfold query_first. intros [Hin HP]%find_some. split; [|done].
  apply elem_of_map_to_list. destruct r. by apply list_elem_of_In.
Qed.

Lemma query_first_found P m i a :
  m !! i = Some a → P i a = true → is_Some (query_first P m).
Proof.
  intros Hia HP. destruct (query_first P m) eqn:Hq; [by eexists|].
  rewrite query_first_None in Hq. rewrite (Hq i a Hia) in HP. done.
Qed.

Lemma next_id_fresh m : m !! next_id m = None.
Proof.
  apply not_elem_of_dom. intros Hin%elem_of_elements%max_list_elem_of_le.
  unfold next_id in Hin. lia.
Qed.

Lemma lookup_add_row_Some row m i a :
  m !! i = Some a → add_row row m !! i = Some a.
Proof.
  intros Hia. unfold add_row. rewrite lookup_insert_ne; [done|].
  intros Heq. rewrite <- Heq, next_id_fresh in Hia. done.
Qed.

Lemma lookup_add_row row m i :
  add_row row m !! i = if decide (i = next_id m) then Some row else m !! i.
Proof.
  unfold add_row. rewrite lookup_insert.
  destruct (decide (next_id m = i)), (decide (i = next_id m)); congruence.
Qed.

Lemma query_count_insert_fresh P m k x :
  m !! k = None →
  query_count P (<[k := x]> m) = ((if P k x then 1 else 0) + query_count P m)%nat.
Proof.
  intros Hk. unfold query_count.
  rewrite (filter_length_Permutation _ _ _ (map_to_list_insert m k x Hk)).
  simpl. by destruct (P k x).
Qed.

Lemma query_count_empty P : query_count P (∅ : gmap nat A) = 0%nat.
Proof. unfold query_count. by rewrite map_to_list_empty. Qed.

Lemma query_count_add_row P m x :
  query_count P (add_row x m)
  = ((if P (next_id m) x then 1 else 0) + query_count P m)%nat.
Proof. apply query_count_insert_fresh, next_id_fresh. Qed.
End Queries.

(** ** Booking conflicts *)

(** A row that the conflict query matches stops the booking, and the
    store stays as it was. *)
Lemma book_rejects_booked_slot (e : Env) (s : Store) (did : nat) (d t : Z)
    (why : option string) (i : nat) (a : Appointment) :
  user_type e = patient →
  doctors s !! did = Some true →
  today e ≤ d →
  is_Some (query_first (covers did d t) (availability s)) →
  appointments s !! i = Some a →
  triple a = (did, d, t) →
  status a = Some "booked"%string →
  Patient.book_appointment e did (Parsed d) (Parsed t) why s = (SlotTaken, s).
Proof.
  intros Hu Hdoc Hday [v Hv] Hia Htriple Hst.
  unfold Patient.book_appointment, is_authenticated. rewrite Hu, Hdoc, Hv. simpl.
  destruct (Z.ltb_spec d (today e)); [lia|].
  destruct (query_first (occupies did d t) (appointments s)) eqn:Hq; [done|].
  rewrite query_first_None in Hq. specialize (Hq i a Hia).
  unfold occupies, status_is, triple in *. simplify_eq.
  rewrite !bool_decide_eq_true_2, !Z.eqb_refl in Hq by done. done.
Qed.

(** C1, where the code departs from the claim: a booking is refused only
    when the row on the triple has the status 'booked'. After patient 1
    books doctor 7 for day 101 at 09:00 and the doctor confirms, the
    booking of patient 2 for the same triple goes through, and two
    appointments that are not cancelled share the triple. *)
Theorem confirmed_slot_is_booked_again :
  let s := run Scenario.book_confirm_book Scenario.clinic in
  outcomes Scenario.book_confirm_book Scenario.clinic = [Ok; Ok; Ok; Ok]
  ∧ status_of s 1 = Some (Some "confirmed"%string)
  ∧ status_of s 2 = Some (Some "booked"%string)
  ∧ triple <$> appointments s !! 1%nat = Some (7%nat, 101, 540)
  ∧ triple <$> appointments s !! 2%nat = Some (7%nat, 101, 540).
Proof. vm_compute. repeat split; reflexivity. Qed.

(** ** Overlapping availability *)

(** The overlap query looks for a stored slot that holds the start or
    the end of the new interval; a stored slot strictly inside the new
    interval holds neither. *)
Lemma overlaps_misses_inner (did : nat) (d st en : Z) (i : nat) (v : DoctorAvailability) :
  st < start_time v → end_time v < en → Doctor.overlaps did d st en i v = false.
Proof.
  intros Hst Hen. unfold Doctor.overlaps.
  destruct (Z.leb_spec (start_time v) st); [lia|].
  destruct (Z.leb_spec en (end_time v)); [lia|].
  by rewrite andb_false_r, orb_false_r, andb_false_r.
Qed.

(** C4, where the code departs from the claim: doctor 7 opens
    [10:00, 11:00) on day 101 and then [09:00, 12:00) on the same day.
    The intervals share the whole hour from 10:00, and both requests
    succeed: the second slot is stored beside the first. *)
Theorem containing_slot_is_accepted :
  let s := run Scenario.nested_slots Scenario.clinic in
  outcomes Scenario.nested_slots Scenario.clinic = [Ok; Ok]
  ∧ (λ v, (av_doctor_id v, available_date v, start_time v, end_time v))
      <$> availability s !! 1%nat = Some (7%nat, 101, 600, 660)
  ∧ (λ v, (av_doctor_id v, available_date v, start_time v, end_time v))
      <$> availability s !! 2%nat = Some (7%nat, 101, 540, 720).
Proof. vm_compute. repeat split; reflexivity. Qed.

(** ** Confirmed appointments and the patient *)

Lemma status_is_true (a : Appointment) (label : string) :
  status a = Some label → status_is a label = true.
Proof. intros H. unfold status_is. by rewrite bool_decide_eq_true_2. Qed.

Lemma status_is_false (a : Appointment) (label : string) :
  status a ≠ Some label → status_is a label = false.
Proof. intros H. unfold status_is. by rewrite bool_decide_eq_false_2. Qed.

(** The patient's cancel and reschedule go on only from 'booked'. *)
Lemma patient_routes_need_booked (e : Env) (s : Store) (id : nat) (a : Appointment) :
  user_type e = patient →
  appointments s !! id = Some a →
  patient_id a = user_id e →
  status a ≠ Some "booked"%string →
  Patient.cancel_appointment e id s = (InvalidTransition, s)
  ∧ ∀ f_date f_time,
      Patient.reschedule_appointment e id f_date f_time s = (InvalidTransition, s).
Proof.
  intros Hu Hia Hown Hst.
  unfold Patient.cancel_appointment, Patient.reschedule_appointment, is_authenticated.
  rewrite Hu, Hia. simpl.
  rewrite (bool_decide_eq_true_2 _ Hown), (status_is_false _ _ Hst). done.
Qed.

(** C6 as the claim states it fails: appointment 1 of patient 1 is
    confirmed and lies 25 hours ahead, 09:30 of the same day is covered
    by the open slot and free, and both the cancel and the reschedule of
    patient 1 are turned down because of the status. *)
Lemma confirmed_cancel_and_reschedule_refused :
  let e := Scenario.as_user patient 1 Scenario.day100_0800 in
  let s := Scenario.confirmed_store in
  status_of s 1 = Some (Some "confirmed"%string)
  ∧ patient_id <$> appointments s !! 1%nat = Some (user_id e)
  ∧ now e + timedelta_hours 2 < datetime_combine 101 540
  ∧ Patient.cancel_appointment e 1 s = (InvalidTransition, s)
  ∧ Patient.reschedule_appointment e 1 (Parsed 101) (Parsed 570) s = (InvalidTransition, s)
  ∧ (Patient.book_appointment e 7 (Parsed 101) (Parsed 570) None s).1 = Ok.
Proof. vm_compute. repeat split; reflexivity. Qed.

(** C6, amended: for an appointment in state confirmed, the cancel and
    the reschedule of the owning patient are both refused with
    InvalidTransition, whatever the time left and the new date and time,
    and the store stays as it was. *)
Theorem patient_routes_refuse_confirmed (e : Env) (s : Store) (id : nat) (a : Appointment) :
  user_type e = patient →
  appointments s !! id = Some a →
  patient_id a = user_id e →
  status a = Some "confirmed"%string →
  Patient.cancel_appointment e id s = (InvalidTransition, s)
  ∧ ∀ f_date f_time,
      Patient.reschedule_appointment e id f_date f_time s = (InvalidTransition, s).
Proof.
  intros Hu Hia Hown Hst. apply (patient_routes_need_booked e s id a); try done.
  rewrite Hst. done.
Qed.

Lemma patient_routes_refuse_confirmed_witness :
  Patient.cancel_appointment (Scenario.as_user patient 1 Scenario.day100_0800) 1
    Scenario.confirmed_store = (InvalidTransition, Scenario.confirmed_store)
  ∧ ∀ f_date f_time,
      Patient.reschedule_appointment (Scenario.as_user patient 1 Scenario.day100_0800) 1
        f_date f_time Scenario.confirmed_store
      = (InvalidTransition, Scenario.confirmed_store).
Proof.
  eapply (patient_routes_refuse_confirmed
            (Scenario.as_user patient 1 Scenario.day100_0800) Scenario.confirmed_store 1).
  - reflexivity.
  - vm_compute. reflexivity.
  - reflexivity.
  - reflexivity.
Defined.

(** ** Completing an appointment *)

(** What a complete request writes once the diagnosis is there and the
    follow-up date parses: the status and one more treatment for the
    appointment. *)
Lemma complete_appointment_writes (e : Env) (s : Store) (id : nat) (a : Appointment)
    (dg rx nt : option string) (required : bool) (f : Field Z) (fu : option Z) :
  is_authenticated e s = true →
  user_type e = doctor →
  appointments s !! id = Some a →
  doctor_id a = user_id e →
  status_in a open_statuses = true →
  Doctor.no_diagnosis dg = false →
  Doctor.parse_follow_up required f = Some fu →
  db_ok e = true →
  let r := Doctor.complete_appointment e id dg rx nt required f s in
  r.1 = Ok
  ∧ appointments r.2 = <[id := set_status (Some "completed"%string) (utcnow e) a]> (appointments s)
  ∧ treatments r.2
    = add_row {| appointment_id := id; diagnosis := default EmptyString dg;
                 prescription := rx; notes := nt; treatment_date := utcnow e;
                 follow_up_required := required; follow_up_date := fu |} (treatments s)
  ∧ availability r.2 = availability s
  ∧ doctors r.2 = doctors s.
Proof.
  intros Hin Hu Hia Hown Hst Hdg Hfu Hdb. unfold Doctor.complete_appointment, commit.
  rewrite Hin, Hu, Hia. simpl.
  rewrite (bool_decide_eq_true_2 _ Hown), Hst, Hdg, Hfu, Hdb. done.
Qed.

(** C5 as the claim states it fails: the doctor completes the booked
    appointment 1 with the diagnosis "flu", a follow-up required and no
    follow-up date. The request succeeds, the appointment is completed
    and its treatment is stored with the flag set and no date. *)
Lemma follow_up_without_date_completes :
  let e := Scenario.as_user doctor 7 Scenario.day100_0800 in
  let r := Doctor.complete_appointment e 1 (Some "flu"%string) None None true Missing
             Scenario.booked_store in
  status_of Scenario.booked_store 1 = Some (Some "booked"%string)
  ∧ r.1 = Ok
  ∧ status_of r.2 1 = Some (Some "completed"%string)
  ∧ treatments_of 1 r.2 = 1%nat
  ∧ (λ t, (appointment_id t, follow_up_required t, follow_up_date t))
      <$> treatments r.2 !! 1%nat = Some (1%nat, true, None).
Proof. vm_compute. repeat split; reflexivity. Qed.

(** C5, amended: a complete request of the assigned doctor, logged in
    (the doctor's row exists and is active), on an open appointment,
    with a diagnosis, a follow-up required and no follow-up date,
    succeeds when the commit goes through: the appointment becomes
    completed and one treatment is added for it, with the flag set and
    the date empty. *)
Theorem follow_up_date_is_optional (e : Env) (s : Store) (id : nat) (a : Appointment)
    (dg rx nt : option string) :
  is_authenticated e s = true →
  user_type e = doctor →
  appointments s !! id = Some a →
  doctor_id a = user_id e →
  status_in a open_statuses = true →
  Doctor.no_diagnosis dg = false →
  db_ok e = true →
  let r := Doctor.complete_appointment e id dg rx nt true Missing s in
  r.1 = Ok
  ∧ status_of r.2 id = Some (Some "completed"%string)
  ∧ treatments_of id r.2 = S (treatments_of id s)
  ∧ (λ t, (appointment_id t, follow_up_required t, follow_up_date t))
      <$> treatments r.2 !! next_id (treatments s) = Some (id, true, None).
Proof.
  intros Hin Hu Hia Hown Hst Hdg Hdb.
  destruct (complete_appointment_writes e s id a dg rx nt true Missing None)
    as (Hok & Happ & Htr & _); try done.
  simpl. split; [done|]. unfold status_of, treatments_of.
  rewrite Happ, Htr. split; [by rewrite lookup_insert_eq|].
  rewrite query_count_add_row. simpl. rewrite bool_decide_eq_true_2 by done.
  split; [done|]. unfold add_row. by rewrite lookup_insert_eq.
Qed.

Lemma follow_up_date_is_optional_witness :
  let r := Doctor.complete_appointment (Scenario.as_user doctor 7 Scenario.day100_0800) 1
             (Some "flu"%string) None None true Missing Scenario.booked_store in
  r.1 = Ok
  ∧ status_of r.2 1 = Some (Some "completed"%string)
  ∧ treatments_of 1 r.2 = S (treatments_of 1 Scenario.booked_store)
  ∧ (λ t, (appointment_id t, follow_up_required t, follow_up_date t))
      <$> treatments r.2 !! next_id (treatments Scenario.booked_store) = Some (1%nat, true, None).
Proof.
  eapply (follow_up_date_is_optional (Scenario.as_user doctor 7 Scenario.day100_0800)
            Scenario.booked_store 1).
  - vm_compute. reflexivity.
  - reflexivity.
  - vm_compute. reflexivity.
  - reflexivity.
  - reflexivity.
  - reflexivity.
  - reflexivity.
Defined.

(** C8: a complete request without a diagnosis (absent or empty) does
    not succeed and leaves the store as it was, whoever sends it and
    whatever the appointment; when it comes from the assigned doctor for
    an open appointment, the answer is MissingDiagnosis if the doctor is
    logged in (the row of the doctor exists and is active) and the
    refusal of the login test if not, the status is the one before and
    no treatment row is added. *)
Theorem complete_without_diagnosis (e : Env) (s : Store) (id : nat)
    (dg rx nt : option string) (required : bool) (f : Field Z) :
  Doctor.no_diagnosis dg = true →
  let r := Doctor.complete_appointment e id dg rx nt required f s in
  r.2 = s
  ∧ r.1 ≠ Ok
  ∧ ∀ a, user_type e = doctor →
         appointments s !! id = Some a →
         doctor_id a = user_id e →
         status_in a open_statuses = true →
         r.1 = (if is_authenticated e s then MissingDiagnosis else LoginRequired)
         ∧ status_of r.2 id = Some (status a)
         ∧ treatments r.2 = treatments s.
Proof.
  intros Hdg. unfold Doctor.complete_appointment. rewrite Hdg. simpl.
  split; [|split].
  - repeat case_match; done.
  - repeat case_match; done.
  - intros a Hu Hia Hown Hst. unfold status_of.
    destruct (is_authenticated e s); simpl; [|by rewrite Hia].
    rewrite Hu, Hia. simpl.
    rewrite (bool_decide_eq_true_2 _ Hown), Hst. simpl.
    by rewrite Hia.
Qed.

Lemma complete_without_diagnosis_witness :
  let r := Doctor.complete_appointment (Scenario.as_user doctor 7 Scenario.day100_0800) 1
             (Some EmptyString) None None false Missing Scenario.booked_store in
  r.2 = Scenario.booked_store ∧ r.1 = MissingDiagnosis.
Proof.
  destruct (complete_without_diagnosis (Scenario.as_user doctor 7 Scenario.day100_0800)
              Scenario.booked_store 1 (Some EmptyString) None None false Missing eq_refl)
    as (Hsame & _ & Hdoctor).
  split; [exact Hsame|].
  edestruct Hdoctor as (Hout & _);
    [reflexivity | vm_compute; reflexivity | reflexivity | reflexivity | exact Hout].
Defined.

(** ** The cancellation window *)





(** ** Rescheduling *)

Lemma occupies_spec (did : nat) (d t : Z) (i : nat) (a : Appointment) :
  occupies did d t i a = true ↔ triple a = (did, d, t) ∧ status a = Some "booked"%string.
Proof.
  unfold occupies, triple, status_is.
  rewrite !andb_true_iff, !bool_decide_eq_true, !Z.eqb_eq.
  split; [intros [[[-> ->] ->] ->]|intros [[= -> -> ->] ->]]; done.
Qed.

Lemma occupies_except_spec (self did : nat) (d t : Z) (i : nat) (a : Appointment) :
  occupies_except self did d t i a = true
  ↔ i ≠ self ∧ triple a = (did, d, t) ∧ status a = Some "booked"%string.
Proof.
  unfold occupies_except.
  rewrite andb_true_iff, negb_true_iff, bool_decide_eq_false, occupies_spec. tauto.
Qed.



(** C10: a reschedule that succeeds replaces the date, the time and
    [updated_at] of the appointment and nothing else: its other columns
    stay, every other appointment row stays, and the availability, the
    treatment and the doctor tables stay. *)
Theorem reschedule_frame (e : Env) (s s' : Store) (id : nat) (f_date f_time : Field Z) :
  Patient.reschedule_appointment e id f_date f_time s = (Ok, s') →
  ∃ a a' d t,
    f_date = Parsed d ∧ f_time = Parsed t
    ∧ appointments s !! id = Some a ∧ appointments s' !! id = Some a'
    ∧ appointment_date a' = d ∧ appointment_time a' = t ∧ updated_at a' = utcnow e
    ∧ patient_id a' = patient_id a ∧ doctor_id a' = doctor_id a
    ∧ status a' = status a ∧ reason a' = reason a
    ∧ appointment_type a' = appointment_type a ∧ priority a' = priority a
    ∧ created_at a' = created_at a
    ∧ (∀ j, j ≠ id → appointments s' !! j = appointments s !! j)
    ∧ dom (appointments s') = dom (appointments s)
    ∧ availability s' = availability s
    ∧ treatments s' = treatments s
    ∧ doctors s' = doctors s.
Proof.
  unfold Patient.reschedule_appointment, commit. intros Hrun.
  destruct (is_authenticated e s); simpl in Hrun; [|done].
  destruct (bool_decide (user_type e = patient)); simpl in Hrun; [|done].
  destruct (appointments s !! id) as [a|] eqn:Hia; [|done].
  destruct (bool_decide (patient_id a = user_id e)); simpl in Hrun; [|done].
  destruct (status_is a "booked"); simpl in Hrun; [|done].
  destruct f_date as [| |d]; destruct f_time as [| |t]; try done.
  destruct (d <? today e); [done|].
  destruct (query_first (covers _ _ _) _); [|done].
  destruct (query_first (occupies_except _ _ _ _) _); [done|].
  destruct (db_ok e); [|done]. injection Hrun as <-.
  exists a, (set_schedule d t (utcnow e) a), d, t. simpl.
  rewrite lookup_insert_eq. repeat split; try done.
  - intros j Hne. by rewrite lookup_insert_ne.
  - rewrite dom_insert_L. apply subseteq_union_1_L, singleton_subseteq_l.
    by apply elem_of_dom_2 in Hia.
Qed.

Lemma reschedule_frame_witness :
  ∃ a a' : Appointment,
    appointments Scenario.booked_store !! 1%nat = Some a
    ∧ appointments
        (Patient.reschedule_appointment (Scenario.as_user patient 1 Scenario.day100_0800) 1
           (Parsed 101) (Parsed 570) Scenario.booked_store).2 !! 1%nat = Some a'
    ∧ appointment_time a' = 570 ∧ status a' = status a ∧ reason a' = reason a.
Proof.
  destruct (reschedule_frame (Scenario.as_user patient 1 Scenario.day100_0800)
              Scenario.booked_store
              (Patient.reschedule_appointment (Scenario.as_user patient 1 Scenario.day100_0800) 1
                 (Parsed 101) (Parsed 570) Scenario.booked_store).2
              1 (Parsed 101) (Parsed 570))
    as (a & a' & d & t & Hd & Ht & Ha & Ha' & _ & Htime & _ & _ & _ & Hst & Hre & _);
    [vm_compute; reflexivity|].
  exists a, a'. injection Ht as <-. auto.
Defined.

(** ** Final states *)

Lemma status_is_exclusive (a : Appointment) (l1 l2 : string) :
  status_is a l1 = true → l1 ≠ l2 → status_is a l2 = false.
Proof.
  unfold status_is. intros H1%bool_decide_eq_true Hne.
  apply bool_decide_eq_false. congruence.
Qed.

Lemma terminal_not_booked (a : Appointment) : terminal a → status_is a "booked" = false.
Proof. intros [H|H]; apply status_is_false; rewrite H; done. Qed.

Lemma terminal_not_open (a : Appointment) :
  terminal a → status_in a open_statuses = false.
Proof.
  intros Hterm. unfold status_in, open_statuses. simpl.
  rewrite !orb_false_iff.
  repeat split; try done; apply status_is_false; destruct Hterm as [H|H]; rewrite H; done.
Qed.

(** C2 as the claim states it fails: appointment 1 is completed, the
    administrator posts the status 'booked' for it, the request succeeds
    and the appointment is booked again. *)
Lemma admin_reopens_completed :
  let e := Scenario.as_user admin 1 Scenario.day100_0800 in
  let r := Admin.update_appointment_status e 1 (Some (Scenario.status_body "booked"))
             Scenario.completed_store in
  status_of Scenario.completed_store 1 = Some (Some "completed"%string)
  ∧ r.1 = Ok
  ∧ status_of r.2 1 = Some (Some "booked"%string).
Proof. vm_compute. repeat split; reflexivity. Qed.

(** C2, amended: for an appointment whose status is completed or
    cancelled, the cancel and reschedule of the patient, the complete and
    cancel of the doctor and the DELETE of the API do not succeed and
    leave the store as it was, and answer InvalidTransition to a caller
    who passes the login, role and ownership tests; a PUT of the API
    leaves the status as it was, and answers success to such a caller
    who sends a body when the commit goes through. The status update of
    the administrator does not look at the current status: it succeeds
    and stores the posted one. *)
Theorem terminal_states_guarded (e : Env) (s : Store) (id : nat) (a : Appointment) :
  appointments s !! id = Some a →
  terminal a →
  (∀ r, status_guarded id r = true →
        (handle e r s).2 = s
        ∧ (handle e r s).1 ≠ Ok
        ∧ (admitted e s r a = true → (handle e r s).1 = InvalidTransition))
  ∧ (∀ data, status_of (handle e (ApiPut id data) s).2 id = Some (status a)
             ∧ (is_authenticated e s = true → Api.may_access e a = true →
                data ≠ ∅ → db_ok e = true →
                (handle e (ApiPut id data) s).1 = Ok))
  ∧ (∀ data, user_type e = admin → db_ok e = true →
        (handle e (AdminUpdateStatus id (Some data)) s).1 = Ok
        ∧ status_of (handle e (AdminUpdateStatus id (Some data)) s).2 id
          = Some (data !! "status"%string)).
Proof.
  intros Hia Hterm.
  pose proof (terminal_not_booked a Hterm) as Hbooked.
  pose proof (terminal_not_open a Hterm) as Hopen.
  split; [|split].
  - intros r Hguard.
    destruct r; simpl in Hguard; try discriminate;
      apply bool_decide_eq_true in Hguard as ->; simpl.
    + unfold Patient.cancel_appointment. rewrite Hia, Hbooked.
      destruct (bool_decide_reflect (user_type e = patient)) as [Hu|Hu]; simpl;
        [|destruct (is_authenticated e s); simpl; done].
      unfold is_authenticated. rewrite Hu. simpl.
      destruct (bool_decide (patient_id a = user_id e)); simpl; done.
    + unfold Patient.reschedule_appointment. rewrite Hia, Hbooked.
      destruct (bool_decide_reflect (user_type e = patient)) as [Hu|Hu]; simpl;
        [|destruct (is_authenticated e s); simpl; done].
      unfold is_authenticated. rewrite Hu. simpl.
      destruct (bool_decide (patient_id a = user_id e)); simpl; done.
    + unfold Doctor.complete_appointment. rewrite Hia, Hopen.
      destruct (is_authenticated e s); simpl; [|done].
      destruct (bool_decide (user_type e = doctor)); simpl; [|done].
      destruct (bool_decide (doctor_id a = user_id e)); simpl; done.
    + unfold Doctor.cancel_appointment. rewrite Hia, Hopen.
      destruct (is_authenticated e s); simpl; [|done].
      destruct (bool_decide (user_type e = doctor)); simpl; [|done].
      destruct (bool_decide (doctor_id a = user_id e)); simpl; done.
    + unfold Api.appointment_detail_delete. rewrite Hia, Hbooked.
      destruct (is_authenticated e s); simpl; [|done].
      destruct (Api.may_access e a); simpl; done.
  - intros data. simpl. unfold Api.appointment_detail_put, commit, status_of.
    rewrite Hia, Hbooked. split.
    + destruct (is_authenticated e s); simpl; [|by rewrite Hia].
      destruct (Api.may_access e a); simpl; [|by rewrite Hia].
      destruct (bool_decide (data = ∅)); simpl; [by rewrite Hia|].
      destruct (db_ok e); simpl; [|by rewrite Hia].
      rewrite lookup_insert_eq. simpl.
      destruct (data !! "status"%string); [rewrite andb_false_r|];
        repeat case_match; done.
    + intros -> -> Hdata ->. simpl. by rewrite bool_decide_eq_false_2.
  - intros data Hu Hdb. simpl.
    unfold Admin.update_appointment_status, commit, status_of, is_authenticated.
    rewrite Hu, Hia, Hdb. simpl.
    destruct (bool_decide_reflect (status a = data !! "status"%string)) as [Heq|Hne]; simpl.
    + rewrite Hia. simpl. by rewrite Heq.
    + by rewrite lookup_insert_eq.
Qed.

(** The completed appointment 1 of the scenario: doctor 7 cannot cancel
    it, the administrator cancels it. *)
Lemma terminal_states_guarded_witness :
  ((handle (Scenario.as_user doctor 7 Scenario.day100_0800) (DoctorCancel 1)
      Scenario.completed_store).1 = InvalidTransition
   ∧ (handle (Scenario.as_user doctor 7 Scenario.day100_0800) (DoctorCancel 1)
        Scenario.completed_store).2 = Scenario.completed_store)
  ∧ (handle (Scenario.as_user admin 1 Scenario.day100_0800)
       (AdminUpdateStatus 1 (Some (Scenario.status_body "cancelled")))
       Scenario.completed_store).1 = Ok.
Proof.
  pose (a1 := set_status (Some "completed"%string) Scenario.day100_0800
                (Patient.new_appointment (Scenario.as_user patient 1 Scenario.day100_0800)
                   7 101 540 (Some "checkup"%string))).
  split.
  - destruct (terminal_states_guarded (Scenario.as_user doctor 7 Scenario.day100_0800)
                Scenario.completed_store 1 a1) as [Hguard _];
      [vm_compute; reflexivity | left; reflexivity |].
    destruct (Hguard (DoctorCancel 1) eq_refl) as (Hsame & _ & Hout).
    split; [apply Hout; vm_compute; reflexivity | exact Hsame].
  - destruct (terminal_states_guarded (Scenario.as_user admin 1 Scenario.day100_0800)
                Scenario.completed_store 1 a1) as (_ & _ & Hadmin);
      [vm_compute; reflexivity | left; reflexivity |].
    exact (proj1 (Hadmin (Scenario.status_body "cancelled") eq_refl eq_refl)).
Defined.

(** ** Treatments and completed appointments *)

Lemma booked_not_completed (a : Appointment) :
  status_is a "booked" = true → status_is a "completed" = false.
Proof. intros H. by apply (status_is_exclusive a "booked"). Qed.

Lemma open_not_completed (a : Appointment) :
  status_in a open_statuses = true → status_is a "completed" = false.
Proof.
  unfold status_in, open_statuses. simpl. rewrite !orb_true_iff.
  intros [H|[H|[H|[H|H]]]]; [| | | |done];
    by eapply status_is_exclusive in H.
Qed.

Lemma expected_insert_same (m : gmap nat Appointment) (id j : nat) (a a' : Appointment) :
  m !! id = Some a →
  status_is a' "completed" = status_is a "completed" →
  expected_treatments (<[id := a']> m) j = expected_treatments m j.
Proof.
  intros Hia Hst. unfold expected_treatments.
  destruct (decide (id = j)) as [<-|Hne].
  - by rewrite lookup_insert_eq, Hia, Hst.
  - by rewrite lookup_insert_ne.
Qed.

Lemma expected_add_row (m : gmap nat Appointment) (j : nat) (a' : Appointment) :
  status_is a' "completed" = false →
  expected_treatments (add_row a' m) j = expected_treatments m j.
Proof.
  intros Hst. unfold expected_treatments. rewrite lookup_add_row.
  case_decide as Hj; [|done]. by rewrite Hj, next_id_fresh, Hst.
Qed.

Lemma invariant_commit (e : Env) (s s' : Store) :
  treatment_invariant s → treatment_invariant s' → treatment_invariant (commit e s s').2.
Proof. intros Hs Hs'. unfold commit. by destruct (db_ok e). Qed.

(** A write to one appointment row that keeps it on its side of
    'completed'. *)
Lemma invariant_set_row (e : Env) (s : Store) (id : nat) (a a' : Appointment) :
  treatment_invariant s →
  appointments s !! id = Some a →
  status_is a' "completed" = status_is a "completed" →
  treatment_invariant
    (commit e s (with_appointments s (<[id := a']> (appointments s)))).2.
Proof.
  intros Hinv Hia Hst. apply invariant_commit; [done|].
  intros j. unfold treatments_of. simpl.
  rewrite (expected_insert_same _ _ _ a) by done. apply Hinv.
Qed.

(** A new row that is not completed. *)
Lemma invariant_add_row (e : Env) (s : Store) (a' : Appointment) :
  treatment_invariant s →
  status_is a' "completed" = false →
  treatment_invariant (commit e s (with_appointments s (add_row a' (appointments s)))).2.
Proof.
  intros Hinv Hst. apply invariant_commit; [done|].
  intros j. unfold treatments_of. simpl.
  rewrite expected_add_row by done. apply Hinv.
Qed.

Lemma invariant_with_availability (e : Env) (s : Store) (m : gmap nat DoctorAvailability) :
  treatment_invariant s → treatment_invariant (commit e s (with_availability s m)).2.
Proof. intros Hinv. by apply invariant_commit. Qed.

(** The write of [complete_appointment]: the row becomes completed and
    one treatment is added for it. *)
Lemma invariant_complete (e : Env) (s : Store) (id : nat) (a : Appointment) (t : Treatment) :
  treatment_invariant s →
  appointments s !! id = Some a →
  status_is a "completed" = false →
  appointment_id t = id →
  treatment_invariant
    (commit e s
       {| doctors := doctors s; availability := availability s;
          appointments :=
            <[id := set_status (Some "completed"%string) (utcnow e) a]> (appointments s);
          treatments := add_row t (treatments s) |}).2.
Proof.
  intros Hinv Hia Hst Ht. apply invariant_commit; [done|].
  intros j. unfold treatments_of, expected_treatments. simpl.
  rewrite query_count_add_row, Ht.
  pose proof (Hinv j) as Hj. unfold treatments_of, expected_treatments in Hj.
  destruct (decide (id = j)) as [<-|Hne].
  - rewrite lookup_insert_eq, bool_decide_eq_true_2 by done.
    rewrite Hj, Hia, Hst. done.
  - rewrite lookup_insert_ne, bool_decide_eq_false_2 by done. exact Hj.
Qed.

(** One case split of a route on its way to the store it returns. *)
Ltac route_branch :=
  lazymatch goal with
  | |- treatment_invariant (if negb ?b then _ else _).2 => destruct b eqn:?
  | |- treatment_invariant (if ?b then _ else _).2 => destruct b eqn:?
  | |- treatment_invariant (match ?x with _ => _ end).2 => destruct x eqn:?
  end; cbn [negb snd]; try assumption.

Lemma invariant_patient_book e did f_date f_time why s :
  treatment_invariant s →
  treatment_invariant (Patient.book_appointment e did f_date f_time why s).2.
Proof.
  intros Hinv. unfold Patient.book_appointment, is_authenticated. repeat route_branch.
  by apply invariant_add_row.
Qed.

Lemma invariant_patient_cancel e id s :
  treatment_invariant s → treatment_invariant (Patient.cancel_appointment e id s).2.
Proof.
  intros Hinv. unfold Patient.cancel_appointment, is_authenticated. repeat route_branch.
  eapply invariant_set_row; [eassumption..|].
  by rewrite (booked_not_completed _ ltac:(eassumption)).
Qed.

Lemma invariant_patient_reschedule e id f_date f_time s :
  treatment_invariant s →
  treatment_invariant (Patient.reschedule_appointment e id f_date f_time s).2.
Proof.
  intros Hinv. unfold Patient.reschedule_appointment, is_authenticated. repeat route_branch.
  eapply invariant_set_row; [eassumption..|]. reflexivity.
Qed.

Lemma invariant_doctor_complete e id dg rx nt required f s :
  treatment_invariant s →
  treatment_invariant (Doctor.complete_appointment e id dg rx nt required f s).2.
Proof.
  intros Hinv. unfold Doctor.complete_appointment. repeat route_branch.
  apply invariant_complete; try done. by apply open_not_completed.
Qed.

Lemma invariant_doctor_cancel e id s :
  treatment_invariant s → treatment_invariant (Doctor.cancel_appointment e id s).2.
Proof.
  intros Hinv. unfold Doctor.cancel_appointment. repeat route_branch.
  eapply invariant_set_row; [eassumption..|].
  by rewrite (open_not_completed _ ltac:(eassumption)).
Qed.

Lemma invariant_add_availability e f_date f_start f_end s :
  treatment_invariant s →
  treatment_invariant (Doctor.add_availability e f_date f_start f_end s).2.
Proof.
  intros Hinv. unfold Doctor.add_availability. repeat route_branch.
  by apply invariant_with_availability.
Qed.

Lemma invariant_delete_availability e id s :
  treatment_invariant s → treatment_invariant (Doctor.delete_availability e id s).2.
Proof.
  intros Hinv. unfold Doctor.delete_availability. repeat route_branch.
  by apply invariant_with_availability.
Qed.

Lemma invariant_api_book e data s :
  treatment_invariant s → treatment_invariant (Api.appointments_post e data s).2.
Proof.
  intros Hinv. unfold Api.appointments_post, is_authenticated. repeat route_branch.
  by apply invariant_add_row.
Qed.

Lemma invariant_api_delete e id s :
  treatment_invariant s → treatment_invariant (Api.appointment_detail_delete e id s).2.
Proof.
  intros Hinv. unfold Api.appointment_detail_delete. repeat route_branch.
  eapply invariant_set_row; [eassumption..|].
  by rewrite (booked_not_completed _ ltac:(eassumption)).
Qed.

(** The confirm of a row that is not completed. *)
Lemma invariant_doctor_confirm e id s :
  completed_at s id = false →
  treatment_invariant s → treatment_invariant (Doctor.confirm_appointment e id s).2.
Proof.
  intros Hsafe Hinv. unfold Doctor.confirm_appointment, completed_at in *.
  repeat route_branch.
  - by apply invariant_commit.
  - eapply invariant_set_row; [eassumption..|]. by rewrite Hsafe.
Qed.

(** The status update of the administrator that keeps the row on its
    side of 'completed'. *)
Lemma invariant_admin_update e id data s :
  skips_treatment e (AdminUpdateStatus id data) s = false →
  treatment_invariant s →
  treatment_invariant (Admin.update_appointment_status e id data s).2.
Proof.
  intros Hsafe Hinv. unfold Admin.update_appointment_status.
  destruct (negb (is_authenticated e s)); [done|].
  destruct (negb (bool_decide (user_type e = admin))); [done|].
  destruct (appointments s !! id) as [a|] eqn:Hia; [|done].
  destruct data as [data|]; [|done]. simpl in Hsafe. rewrite Hia in Hsafe.
  apply negb_false_iff, bool_decide_eq_true in Hsafe.
  destruct (bool_decide (status a = data !! "status"%string)).
  - by apply invariant_commit.
  - eapply invariant_set_row; [eassumption..|]. by rewrite Hsafe.
Qed.

(** The PUT of the API that does not complete a booked row. *)
Lemma invariant_api_put e id data s :
  skips_treatment e (ApiPut id data) s = false →
  treatment_invariant s → treatment_invariant (Api.appointment_detail_put e id data s).2.
Proof.
  intros Hsafe Hinv. unfold Api.appointment_detail_put.
  destruct (negb (is_authenticated e s)); [done|].
  destruct (appointments s !! id) as [a|] eqn:Hia; [|done].
  destruct (negb (Api.may_access e a)); [done|].
  destruct (bool_decide (data = ∅)); [done|].
  simpl in Hsafe. rewrite Hia in Hsafe.
  eapply invariant_set_row; [eassumption..|].
  assert (Hstatus :
    status_is
      match data !! "status"%string with
      | Some new_status =>
        if bool_decide (user_type e = doctor ∨ user_type e = admin)
           && bool_decide (new_status ∈ ["completed"; "cancelled"]%string)
           && status_is a "booked"
        then set_status (Some new_status) (utcnow e) a else a
      | None => a
      end "completed" = status_is a "completed").
  { destruct (data !! "status"%string) as [new_status|] eqn:Hnew; [|done].
    destruct (bool_decide_reflect (user_type e = doctor ∨ user_type e = admin))
      as [Hrole|]; [|done].
    destruct (bool_decide_reflect (new_status ∈ ["completed"; "cancelled"]%string))
      as [Hlabel|]; [|done].
    destruct (status_is a "booked") eqn:Hbooked; [|done]. simpl.
    rewrite (booked_not_completed a Hbooked).
    apply elem_of_cons in Hlabel as [->|Hlabel].
    - destruct Hrole as [Hrole|Hrole]; rewrite Hrole in Hsafe;
        vm_compute in Hsafe; discriminate.
    - apply list_elem_of_singleton in Hlabel as ->. reflexivity. }
  repeat case_match; try exact Hstatus; simpl; exact Hstatus.
Qed.

Lemma invariant_handle (e : Env) (r : Request) (s : Store) :
  skips_treatment e r s = false →
  treatment_invariant s → treatment_invariant (handle e r s).2.
Proof.
  destruct r; intros Hsafe Hinv; cbn [handle].
  - by apply invariant_patient_book.
  - by apply invariant_patient_cancel.
  - by apply invariant_patient_reschedule.
  - by apply invariant_doctor_complete.
  - by apply invariant_doctor_cancel.
  - by apply invariant_doctor_confirm.
  - by apply invariant_add_availability.
  - by apply invariant_delete_availability.
  - by apply invariant_admin_update.
  - by apply invariant_api_book.
  - by apply invariant_api_put.
  - by apply invariant_api_delete.
Qed.

Lemma invariant_run (rs : list (Env * Request)) (s : Store) :
  keeps_treatments rs s = true →
  treatment_invariant s → treatment_invariant (run rs s).
Proof.
  revert s. induction rs as [|[e r] rs IH]; intros s Hsafe Hinv; simpl in *; [done|].
  apply andb_true_iff in Hsafe as [Hr Hrs]. apply negb_true_iff in Hr.
  apply IH; [done|]. by apply invariant_handle.
Qed.

Lemma invariant_empty (s : Store) :
  appointments s = ∅ → treatments s = ∅ → treatment_invariant s.
Proof.
  intros Ha Ht j. unfold treatments_of, expected_treatments.
  by rewrite Ha, Ht, query_count_empty, lookup_empty.
Qed.

Lemma complete_ok_completed e id dg rx nt required f s :
  (Doctor.complete_appointment e id dg rx nt required f s).1 = Ok →
  status_of (Doctor.complete_appointment e id dg rx nt required f s).2 id
  = Some (Some "completed"%string).
Proof.
  unfold Doctor.complete_appointment, commit, status_of.
  repeat case_match; simpl; try discriminate.
  intros _. by rewrite lookup_insert_eq.
Qed.

(** C3 as the claim states it fails: doctor 7 sends the API a PUT with
    the status 'completed' for the booked appointment 1. The request
    succeeds, the appointment is completed and no treatment references
    it. *)
Lemma api_put_completes_without_treatment :
  let e := Scenario.as_user doctor 7 Scenario.day100_0800 in
  let r := Api.appointment_detail_put e 1 (Scenario.status_body "completed")
             Scenario.booked_store in
  status_of Scenario.booked_store 1 = Some (Some "booked"%string)
  ∧ r.1 = Ok
  ∧ status_of r.2 1 = Some (Some "completed"%string)
  ∧ treatments_of 1 r.2 = 0%nat.
Proof. vm_compute. repeat split; reflexivity. Qed.

(** C3, amended: start from a store without appointments and treatments
    and run any sequence of requests in which the administrator's status
    update never posts 'completed' for a row that is not completed nor
    another status for a completed row, no doctor or administrator sends
    the API a PUT with the status 'completed' for a booked row, and no
    completed row is confirmed. Then each completed appointment has
    exactly one treatment that references it and every other
    appointment, as every id without a row, has none; and a complete
    request that succeeds next leaves its appointment completed with
    exactly one treatment. Bookings, confirms, cancels, reschedules, the
    other status updates and PUTs are all allowed in the sequence. *)
Theorem treatments_follow_completion (rs : list (Env * Request)) (s : Store) :
  appointments s = ∅ →
  treatments s = ∅ →
  keeps_treatments rs s = true →
  treatment_invariant (run rs s)
  ∧ ∀ e id dg rx nt required f,
      let r := Doctor.complete_appointment e id dg rx nt required f (run rs s) in
      r.1 = Ok →
      status_of r.2 id = Some (Some "completed"%string) ∧ treatments_of id r.2 = 1%nat.
Proof.
  intros Ha Ht Hsafe.
  assert (Hinv : treatment_invariant (run rs s))
    by (apply invariant_run; [done|by apply invariant_empty]).
  split; [done|]. intros e id dg rx nt required f r Hok.
  pose proof (complete_ok_completed e id dg rx nt required f _ Hok) as Hst.
  split; [done|].
  pose proof (invariant_doctor_complete e id dg rx nt required f _ Hinv id) as Hcount.
  fold r in Hst, Hcount. rewrite Hcount. unfold expected_treatments.
  unfold status_of in Hst. destruct (appointments r.2 !! id) as [a|]; [|done].
  simpl in Hst. injection Hst as Hst. by rewrite (status_is_true _ _ Hst).
Qed.

(** The doctor opens a slot, patient 1 books it, the doctor confirms
    and then completes the appointment: one treatment references
    appointment 1. *)
Lemma treatments_follow_completion_witness :
  treatments_of 1
    (run [Scenario.open_0900_1000; Scenario.book_0900 1; Scenario.confirm 1;
          Scenario.complete_flu 1]
       Scenario.clinic)
  = expected_treatments
      (appointments
         (run [Scenario.open_0900_1000; Scenario.book_0900 1; Scenario.confirm 1;
               Scenario.complete_flu 1]
            Scenario.clinic)) 1.
Proof.
  apply (treatments_follow_completion
           [Scenario.open_0900_1000; Scenario.book_0900 1; Scenario.confirm 1;
            Scenario.complete_flu 1]
           Scenario.clinic).
  - reflexivity.
  - reflexivity.
  - vm_compute. reflexivity.
Defined.

(** * Properties of the routes together *)

(** ** Every request is one of the effects *)

Lemma status_is_Some (a : Appointment) (label : string) :
  status_is a label = true ↔ status a = Some label.
Proof. unfold status_is. apply bool_decide_eq_true. Qed.

Lemma query_first_exists {A : Type} (P : nat → A → bool) (m : gmap nat A) r :
  query_first P m = Some r → ∃ k v, m !! k = Some v ∧ P k v = true.
Proof. intros [Hrow HP]%query_first_Some. by exists r.1, r.2. Qed.

Lemma truthy_id_Some (o : option nat) (did : nat) :
  Api.truthy_id o = Some did → o = Some did ∧ did ≠ 0%nat.
Proof. destruct o as [[|n]|]; simpl; intros [= <-]; done. Qed.

(** One case split of a route on its way to the answer. *)
Ltac effect_branch :=
  lazymatch goal with
  | |- Effect _ _ _ (if negb ?b then _ else _) => destruct b eqn:?
  | |- Effect _ _ _ (if ?b then _ else _) => destruct b eqn:?
  | |- Effect _ _ _ (match ?x with _ => _ end) => destruct x eqn:?
  | |- Effect _ _ _ (commit _ _ _) => unfold commit
  end; cbn [negb]; try (by apply eff_fail).

(** The tests a route made, as propositions. *)
Ltac tests_as_props :=
  repeat match goal with
  | H : bool_decide _ = true |- _ => apply bool_decide_eq_true in H
  | H : bool_decide _ = false |- _ => apply bool_decide_eq_false in H
  | H : status_is _ _ = true |- _ => apply status_is_Some in H
  | H : (_ <? _) = false |- _ => apply Z.ltb_ge in H
  | H : (_ <=? _) = false |- _ => apply Z.leb_gt in H
  | H : (_ <=? _) = true |- _ => apply Z.leb_le in H
  | H : query_first _ _ = Some _ |- _ => apply query_first_exists in H
  | H : query_first _ _ = None |- _ => rewrite query_first_None in H
  end.

Lemma handle_effect (e : Env) (r : Request) (s : Store) : Effect e s r (handle e r s).
Proof.
  destruct r; simpl.
  - unfold Patient.book_appointment, is_authenticated. repeat effect_branch.
    tests_as_props. subst. apply eff_book. by repeat split.
  - unfold Patient.cancel_appointment, is_authenticated. repeat effect_branch.
    tests_as_props. by apply eff_patient_cancel.
  - unfold Patient.reschedule_appointment, is_authenticated. repeat effect_branch.
    tests_as_props. by apply eff_reschedule.
  - unfold Doctor.complete_appointment. repeat effect_branch.
    tests_as_props. by apply eff_complete.
  - unfold Doctor.cancel_appointment. repeat effect_branch.
    tests_as_props. by apply eff_doctor_cancel.
  - unfold Doctor.confirm_appointment. repeat effect_branch; tests_as_props.
    + by eapply eff_confirm_again.
    + apply eff_confirm; try done.
      match goal with H : status_is _ _ = false |- _ =>
        intros Hst%status_is_Some; by rewrite Hst in H end.
  - unfold Doctor.add_availability. repeat effect_branch.
    tests_as_props. by apply eff_add_slot.
  - unfold Doctor.delete_availability. repeat effect_branch.
    tests_as_props. by eapply eff_delete_slot.
  - unfold Admin.update_appointment_status, is_authenticated. repeat effect_branch; tests_as_props.
    + by eapply eff_admin_again.
    + by apply eff_admin.
  - unfold Api.appointments_post, is_authenticated. repeat effect_branch.
    tests_as_props.
    match goal with H : Api.truthy_id _ = Some _ |- _ =>
      apply truthy_id_Some in H as [Hdid _] end.
    subst. by eapply eff_api_book.
  - unfold Api.appointment_detail_put. repeat effect_branch.
    tests_as_props. by apply eff_put.
  - unfold Api.appointment_detail_delete. repeat effect_branch.
    tests_as_props. by apply eff_api_delete.
Qed.

(** ** Failed requests *)

Lemma effect_fail_same (e : Env) (s s' : Store) (r : Request) (o : Outcome) :
  Effect e s r (o, s') → o ≠ Ok → s' = s.
Proof. intros H Ho. inversion H; subst; done. Qed.

(** X1: a request that does not answer success leaves every table as it
    was, whatever the route, the caller and the arguments. *)
Theorem failed_request_changes_nothing (e : Env) (r : Request) (s : Store) :
  (handle e r s).1 ≠ Ok → (handle e r s).2 = s.
Proof.
  intros Hfail. pose proof (handle_effect e r s) as Heff.
  destruct (handle e r s) as [o s']. by apply (effect_fail_same e s s' r o).
Qed.

(** A patient sends the doctor's complete request for appointment 1. *)
Lemma failed_request_changes_nothing_witness :
  (handle (Scenario.as_user patient 1 Scenario.day100_0800)
     (DoctorComplete 1 (Some "flu"%string) None None false Missing)
     Scenario.booked_store).2 = Scenario.booked_store.
Proof.
  apply (failed_request_changes_nothing
           (Scenario.as_user patient 1 Scenario.day100_0800)
           (DoctorComplete 1 (Some "flu"%string) None None false Missing)
           Scenario.booked_store).
  vm_compute. discriminate.
Defined.

(** ** Rows are kept *)

Lemma put_row_identity (e : Env) (data : gmap string string) (a : Appointment) :
  identity_columns (put_row e data a) = identity_columns a
  ∧ triple (put_row e data a) = triple a.
Proof. unfold put_row. repeat case_match; done. Qed.

Lemma effect_keeps_rows (e : Env) (s s' : Store) (r : Request) (o : Outcome) :
  Effect e s r (o, s') →
  (∀ id a, appointments s !! id = Some a →
     ∃ a', appointments s' !! id = Some a' ∧ identity_columns a' = identity_columns a)
  ∧ (∀ k t, treatments s !! k = Some t → treatments s' !! k = Some t).
Proof.
  intros H. inversion H; subst; simpl; split; try (intros i x Hx; by eauto);
    try (by intros k x Hx; apply lookup_add_row_Some);
    intros i x Hx;
    try (exists x; split; [by apply lookup_add_row_Some|done]);
    (destruct (decide (i = id)) as [->|Hne];
     [rewrite lookup_insert_eq; eexists; split; [done|]; simplify_eq;
      first [done | apply put_row_identity]
     |rewrite lookup_insert_ne by done; eauto]).
Qed.

Lemma run_keeps_rows (rs : list (Env * Request)) (s : Store) :
  (∀ id a, appointments s !! id = Some a →
     ∃ a', appointments (run rs s) !! id = Some a'
           ∧ identity_columns a' = identity_columns a)
  ∧ (∀ k t, treatments s !! k = Some t → treatments (run rs s) !! k = Some t).
Proof.
  revert s. induction rs as [|[e r] rs IH]; intros s; simpl; [eauto|].
  pose proof (handle_effect e r s) as Heff.
  destruct (handle e r s) as [o s1]. simpl.
  destruct (effect_keeps_rows e s s1 r o Heff) as [Hrows Htr].
  destruct (IH s1) as [Hrows' Htr']. split.
  - intros id a Ha. destruct (Hrows id a Ha) as (a1 & Ha1 & Hid1).
    destruct (Hrows' id a1 Ha1) as (a2 & Ha2 & Hid2).
    exists a2. split; [done|congruence].
  - auto.
Qed.

(** X2: no sequence of requests deletes an appointment or changes its
    patient, doctor, creation time, type or priority, and none deletes or
    changes a treatment. *)
Theorem rows_are_kept (rs : list (Env * Request)) (s : Store) (id : nat) (a : Appointment) :
  appointments s !! id = Some a →
  (∃ a', appointments (run rs s) !! id = Some a'
         ∧ patient_id a' = patient_id a ∧ doctor_id a' = doctor_id a
         ∧ created_at a' = created_at a
         ∧ appointment_type a' = appointment_type a ∧ priority a' = priority a)
  ∧ (∀ k t, treatments s !! k = Some t → treatments (run rs s) !! k = Some t).
Proof.
  intros Ha. destruct (run_keeps_rows rs s) as [Hrows Htr]. split; [|done].
  destruct (Hrows id a Ha) as (a' & Ha' & Hid). exists a'.
  unfold identity_columns in Hid. by simplify_eq.
Qed.

(** ** Invariants over request sequences *)

Lemma put_row_status (e : Env) (data : gmap string string) (a : Appointment) :
  status (put_row e data a) = status a
  ∨ (status a = Some "booked"%string
     ∧ (status (put_row e data a) = Some "completed"%string
        ∨ status (put_row e data a) = Some "cancelled"%string)).
Proof.
  unfold put_row.
  destruct (data !! "status"%string) as [st|]; [|repeat case_match; by left].
  destruct (bool_decide (user_type e = doctor ∨ user_type e = admin)); simpl;
    [|repeat case_match; by left].
  destruct (bool_decide_reflect (st ∈ ["completed"; "cancelled"]%string)) as [Hin|];
    simpl; [|repeat case_match; by left].
  destruct (status_is a "booked") eqn:Hbooked; [|repeat case_match; by left].
  apply status_is_Some in Hbooked. right. split; [done|].
  assert (st = "completed"%string ∨ st = "cancelled"%string) as [->| ->].
  { apply elem_of_cons in Hin as [->|Hin]; [by left|].
    apply list_elem_of_singleton in Hin. by right. }
  - left. repeat case_match; done.
  - right. repeat case_match; done.
Qed.

(** A write to row [id] that does not make it booked on another triple. *)
Lemma booked_unique_update (s s' : Store) (id : nat) (a a' : Appointment) :
  appointments s !! id = Some a →
  appointments s' = <[id := a']> (appointments s) →
  (status a' = Some "booked"%string →
   status a = Some "booked"%string ∧ triple a' = triple a) →
  booked_unique s → booked_unique s'.
Proof.
  intros Ha Hs' Hkeep Huniq i j x y Hx Hy Hbx Hby Htr.
  rewrite Hs' in Hx, Hy.
  destruct (decide (i = id)) as [->|Hi], (decide (j = id)) as [->|Hj]; [done|..].
  - rewrite lookup_insert_eq in Hx. rewrite lookup_insert_ne in Hy by done.
    injection Hx as <-. destruct (Hkeep Hbx) as [Hba Hta].
    apply (Huniq id j a y); try done. congruence.
  - rewrite lookup_insert_eq in Hy. rewrite lookup_insert_ne in Hx by done.
    injection Hy as <-. destruct (Hkeep Hby) as [Hba Hta].
    apply (Huniq i id x a); try done. congruence.
  - rewrite lookup_insert_ne in Hx, Hy by done. by apply (Huniq i j x y).
Qed.

(** A write that puts a booked row on a triple no other booked row has. *)
Lemma booked_unique_place (s s' : Store) (id : nat) (a' : Appointment) :
  appointments s' = <[id := a']> (appointments s) →
  (∀ j b, j ≠ id → appointments s !! j = Some b →
          status b = Some "booked"%string → triple b ≠ triple a') →
  booked_unique s → booked_unique s'.
Proof.
  intros Hs' Hfree Huniq i j x y Hx Hy Hbx Hby Htr.
  rewrite Hs' in Hx, Hy.
  destruct (decide (i = id)) as [->|Hi], (decide (j = id)) as [->|Hj]; [done|..].
  - rewrite lookup_insert_eq in Hx. rewrite lookup_insert_ne in Hy by done.
    injection Hx as <-. destruct (Hfree j y Hj Hy Hby). done.
  - rewrite lookup_insert_eq in Hy. rewrite lookup_insert_ne in Hx by done.
    injection Hy as <-. destruct (Hfree i x Hi Hx Hbx). done.
  - rewrite lookup_insert_ne in Hx, Hy by done. by apply (Huniq i j x y).
Qed.

Lemma effect_booked_unique (e : Env) (s s' : Store) (r : Request) (o : Outcome) :
  Effect e s r (o, s') → is_admin_update r = false →
  booked_unique s → booked_unique s'.
Proof.
  intros H Hr Huniq. inversion H; subst; simpl in Hr; try discriminate; try done;
    try (eapply booked_unique_update; [eassumption|reflexivity| |done]; done);
    try match goal with
    | Hbook : Bookable _ _ ?did ?d ?t |- _ =>
        destruct Hbook as (_ & _ & _ & _ & _ & Hfree);
        eapply booked_unique_place; [reflexivity| |done];
        intros j0 b0 Hne Hb Hbooked Htr; specialize (Hfree j0 b0 Hb);
        rewrite (proj2 (occupies_spec did d t j0 b0)) in Hfree; done
    end.
  - eapply booked_unique_place; [reflexivity| |done].
    intros j b Hne Hb Hbooked Htr.
    match goal with Hfree : ∀ j b, _ → occupies_except _ _ _ _ _ _ = false |- _ =>
      specialize (Hfree j b Hb);
      rewrite (proj2 (occupies_except_spec id (doctor_id a) d t j b)) in Hfree; done
    end.
  - eapply booked_unique_update; [eassumption|reflexivity| |done].
    intros Hb. destruct (put_row_status e data a) as [Hsame|[_ [Hc|Hc]]];
      [|congruence..].
    split; [congruence|]. apply put_row_identity.
Qed.

Lemma run_invariant (P : Store → Prop) (allowed : Request → bool) :
  (∀ e r s, allowed r = true → P s → P (handle e r s).2) →
  ∀ rs s, forallb (λ er, allowed er.2) rs = true → P s → P (run rs s).
Proof.
  intros Hstep rs. induction rs as [|[e r] rs IH]; intros s Hall HP; simpl in *; [done|].
  apply andb_true_iff in Hall as [Hr Hrs]. apply IH; [done|]. by apply Hstep.
Qed.

(** X3: the booking and rescheduling routes keep at most one appointment
    with the status 'booked' on a (doctor, date, time) triple: from a
    store where that holds, it holds after every sequence of requests
    that contains no status update of the administrator. *)
Theorem one_booked_per_triple (rs : list (Env * Request)) (s : Store) :
  booked_unique s →
  forallb (λ er, negb (is_admin_update er.2)) rs = true →
  booked_unique (run rs s).
Proof.
  intros Huniq Hrs.
  apply (run_invariant booked_unique (λ r, negb (is_admin_update r))); try done.
  intros e r s0 Hr Hs0. pose proof (handle_effect e r s0) as Heff.
  destruct (handle e r s0) as [o s1].
  apply (effect_booked_unique e s0 s1 r o Heff); [|done].
  by apply negb_true_iff.
Qed.

Lemma booked_unique_clinic : booked_unique Scenario.clinic.
Proof. intros i j a b Ha. simpl in Ha. by rewrite lookup_empty in Ha. Qed.

(** The sequence in which appointment 1 is confirmed and the same triple
    booked again: the two rows that share the triple are not both
    'booked'. *)
Lemma one_booked_per_triple_witness :
  booked_unique (run Scenario.book_confirm_book Scenario.clinic).
Proof.
  apply (one_booked_per_triple Scenario.book_confirm_book Scenario.clinic).
  - exact booked_unique_clinic.
  - reflexivity.
Defined.

Lemma rows_are_kept_witness :
  ∃ a', appointments (run [Scenario.confirm 1] Scenario.booked_store) !! 1%nat = Some a'
        ∧ patient_id a' = 1%nat ∧ doctor_id a' = 7%nat.
Proof.
  destruct (rows_are_kept [Scenario.confirm 1] Scenario.booked_store 1
              (Patient.new_appointment (Scenario.as_user patient 1 Scenario.day100_0800)
                 7 101 540 (Some "checkup"%string)))
    as [(a' & Ha' & Hp & Hd & _) _]; [vm_compute; reflexivity|].
  exists a'. auto.
Defined.

Lemma statuses_written_update (s s' : Store) (id : nat) (a' : Appointment) :
  appointments s' = <[id := a']> (appointments s) →
  status_in a' written_statuses = true →
  statuses_written s → statuses_written s'.
Proof.
  intros Hs' Ha' Hall i x Hx. rewrite Hs' in Hx.
  destruct (decide (i = id)) as [->|Hne].
  - rewrite lookup_insert_eq in Hx. by injection Hx as <-.
  - rewrite lookup_insert_ne in Hx by done. by apply (Hall i).
Qed.

Lemma put_row_written (e : Env) (data : gmap string string) (a : Appointment) :
  status_in a written_statuses = true →
  status_in (put_row e data a) written_statuses = true.
Proof.
  intros Ha. unfold status_in, status_is in *.
  destruct (put_row_status e data a) as [->|[_ [->| ->]]]; done.
Qed.

Lemma effect_statuses_written (e : Env) (s s' : Store) (r : Request) (o : Outcome) :
  Effect e s r (o, s') → is_admin_update r = false →
  statuses_written s → statuses_written s'.
Proof.
  intros H Hr Hall. inversion H; subst; simpl in Hr; try discriminate; try done;
    try (eapply statuses_written_update; [reflexivity| |done]; first
           [ reflexivity
           | apply put_row_written; eapply Hall; eassumption
           | match goal with
             | Ha : appointments s !! _ = Some ?a |- _ => exact (Hall _ a Ha)
             end ]).
Qed.

(** X4: the routes write the four labels 'booked', 'confirmed',
    'completed' and 'cancelled' only: from a store whose rows carry these
    labels, every row carries one of them after any sequence of requests
    without a status update of the administrator. The labels 'pending'
    and 'scheduled' that the doctor's routes test for are never
    written. *)
Theorem only_four_statuses (rs : list (Env * Request)) (s : Store) :
  statuses_written s →
  forallb (λ er, negb (is_admin_update er.2)) rs = true →
  statuses_written (run rs s)
  ∧ ∀ id a, appointments (run rs s) !! id = Some a →
            status a ≠ Some "pending"%string ∧ status a ≠ Some "scheduled"%string.
Proof.
  intros Hall Hrs.
  assert (Hrun : statuses_written (run rs s)).
  { apply (run_invariant statuses_written (λ r, negb (is_admin_update r))); try done.
    intros e r s0 Hr Hs0. pose proof (handle_effect e r s0) as Heff.
    destruct (handle e r s0) as [o s1].
    apply (effect_statuses_written e s0 s1 r o Heff); [|done].
    by apply negb_true_iff. }
  split; [done|]. intros id a Ha. specialize (Hrun id a Ha).
  unfold status_in, written_statuses in Hrun. simpl in Hrun.
  rewrite !orb_true_iff, !status_is_Some in Hrun.
  split; intros Hst; rewrite Hst in Hrun;
    destruct Hrun as [H|[H|[H|[H|H]]]]; discriminate.
Qed.

Lemma only_four_statuses_witness :
  statuses_written (run Scenario.book_confirm_book Scenario.clinic).
Proof.
  apply (only_four_statuses Scenario.book_confirm_book Scenario.clinic).
  - intros id a Ha. simpl in Ha. by rewrite lookup_empty in Ha.
  - reflexivity.
Defined.

Lemma effect_slots_well_formed (e : Env) (s s' : Store) (r : Request) (o : Outcome) :
  Effect e s r (o, s') → slots_well_formed s → slots_well_formed s'.
Proof.
  intros H Hall. inversion H; subst; try done; intros k0 v0 Hv; simpl in Hv.
  - rewrite lookup_add_row in Hv. case_decide; [by injection Hv as <-|by eapply Hall].
  - apply lookup_delete_Some in Hv as [_ Hv]. by eapply Hall.
Qed.

(** X5: every availability slot the doctor's route stores ends after it
    starts, and no request breaks that: from a store of well-formed
    slots, all slots are well-formed after any sequence of requests. *)
Theorem slots_stay_well_formed (rs : list (Env * Request)) (s : Store) :
  slots_well_formed s → slots_well_formed (run rs s).
Proof.
  intros Hall.
  apply (run_invariant slots_well_formed (λ _, true)); try done.
  - intros e r s0 _ Hs0. pose proof (handle_effect e r s0) as Heff.
    destruct (handle e r s0) as [o s1]. by apply (effect_slots_well_formed e s0 s1 r o).
  - by induction rs.
Qed.

Lemma slots_stay_well_formed_witness :
  slots_well_formed (run Scenario.nested_slots Scenario.clinic).
Proof.
  apply (slots_stay_well_formed Scenario.nested_slots Scenario.clinic).
  intros k v Hv. simpl in Hv. by rewrite lookup_empty in Hv.
Defined.

(** ** Booking *)

Lemma covers_spec (did : nat) (d t : Z) (k : nat) (v : DoctorAvailability) :
  covers did d t k v = true
  ↔ av_doctor_id v = did ∧ available_date v = d
    ∧ start_time v ≤ t < end_time v ∧ is_available v = true.
Proof.
  unfold covers.
  rewrite !andb_true_iff, bool_decide_eq_true, Z.eqb_eq, Z.leb_le, Z.ltb_lt. tauto.
Qed.


(** An accepted booking passed its guards. *)
Lemma booked_was_bookable (e : Env) (did : nat) (f_date f_time : Field Z)
    (why : option string) (s s' : Store) :
  Patient.book_appointment e did f_date f_time why s = (Ok, s') →
  ∃ d t, f_date = Parsed d ∧ f_time = Parsed t ∧ Bookable e s did d t
         ∧ s' = with_appointments s
                  (add_row (Patient.new_appointment e did d t why) (appointments s)).
Proof.
  intros Hrun. pose proof (handle_effect e (PatientBook did f_date f_time why) s) as Heff.
  simpl in Heff. rewrite Hrun in Heff. inversion Heff; subst; [done|].
  by eexists _, _.
Qed.

(** X6: a booking that the patient's route accepts was sent by a patient
    for an active doctor and a date that is not past, at a time inside an
    open slot of that doctor on that date, on a triple that no booked
    appointment held; it inserts one row under a new id, with the status
    'booked' and the caller as patient, and changes nothing else. *)
Theorem accepted_booking (e : Env) (did : nat) (f_date f_time : Field Z)
    (why : option string) (s s' : Store) :
  Patient.book_appointment e did f_date f_time why s = (Ok, s') →
  ∃ d t,
    f_date = Parsed d ∧ f_time = Parsed t
    ∧ user_type e = patient ∧ doctors s !! did = Some true ∧ today e ≤ d
    ∧ (∃ k v, availability s !! k = Some v ∧ av_doctor_id v = did
              ∧ available_date v = d ∧ start_time v ≤ t < end_time v
              ∧ is_available v = true)
    ∧ (∀ j b, appointments s !! j = Some b → triple b = (did, d, t) →
              status b ≠ Some "booked"%string)
    ∧ appointments s !! next_id (appointments s) = None
    ∧ appointments s'
      = <[next_id (appointments s) := Patient.new_appointment e did d t why]>
          (appointments s)
    ∧ status (Patient.new_appointment e did d t why) = Some "booked"%string
    ∧ patient_id (Patient.new_appointment e did d t why) = user_id e
    ∧ availability s' = availability s ∧ treatments s' = treatments s
    ∧ doctors s' = doctors s.
Proof.
  intros Hrun.
  destruct (booked_was_bookable _ _ _ _ _ _ _ Hrun)
    as (d & t & -> & -> & (Hu & _ & Hdoc & Hday & (k & v & Hv & Hcov) & Hfree) & ->).
  exists d, t. apply covers_spec in Hcov as (? & ? & ? & ?).
  repeat split; try done.
  - by exists k, v.
  - intros j b Hb Htr Hst. specialize (Hfree j b Hb).
    by rewrite (proj2 (occupies_spec did d t j b)) in Hfree.
  - apply next_id_fresh.
Qed.

Lemma accepted_booking_witness :
  ∃ d t, Parsed 101 = Parsed d ∧ Parsed 570 = Parsed t
         ∧ doctors Scenario.booked_store !! 7%nat = Some true
         ∧ today (Scenario.as_user patient 2 Scenario.day100_0800) ≤ d.
Proof.
  destruct (accepted_booking (Scenario.as_user patient 2 Scenario.day100_0800) 7
              (Parsed 101) (Parsed 570) None Scenario.booked_store
              (Patient.book_appointment (Scenario.as_user patient 2 Scenario.day100_0800) 7
                 (Parsed 101) (Parsed 570) None Scenario.booked_store).2)
    as (d & t & Hd & Ht & _ & Hdoc & Hday & _); [vm_compute; reflexivity|].
  exists d, t. auto.
Defined.

(** X7: once a booking is accepted, no booking of the same doctor, date
    and time is accepted from the store it leaves, neither by the
    patient's route nor by the API; a patient who asks for it on a day
    that is not past the date is answered SlotTaken. *)
Theorem no_second_booking (e : Env) (did : nat) (d t : Z) (why : option string)
    (s s' : Store) :
  Patient.book_appointment e did (Parsed d) (Parsed t) why s = (Ok, s') →
  ∀ (e' : Env) (why' : option string),
    (Patient.book_appointment e' did (Parsed d) (Parsed t) why' s').1 ≠ Ok
    ∧ (Api.appointments_post e'
         (Some {| Api.j_doctor_id := Some did; Api.j_date := Api.JParsed d;
                  Api.j_time := Api.JParsed t; Api.j_reason := why' |}) s').1 ≠ Ok
    ∧ (user_type e' = patient → today e' ≤ d →
       Patient.book_appointment e' did (Parsed d) (Parsed t) why' s' = (SlotTaken, s')).
Proof.
  intros Hrun e' why'.
  destruct (booked_was_bookable _ _ _ _ _ _ _ Hrun)
    as (d0 & t0 & [= <-] & [= <-] & (Hu & _ & Hdoc & Hday & (k & v & Hv & Hcov) & Hfree) & ->).
  set (s' := with_appointments s _).
  assert (Hrow : appointments s' !! next_id (appointments s)
                 = Some (Patient.new_appointment e did d t why))
    by (unfold s', add_row; simpl; apply lookup_insert_eq).
  assert (Hheld : ∀ e2, ¬ Bookable e2 s' did d t).
  { intros e2 (_ & _ & _ & _ & _ & Hfree'). specialize (Hfree' _ _ Hrow).
    by rewrite (proj2 (occupies_spec did d t _ _)) in Hfree'. }
  split; [|split].
  - pose proof (handle_effect e' (PatientBook did (Parsed d) (Parsed t) why') s') as Heff.
    simpl in Heff. intros Hok.
    destruct (Patient.book_appointment e' did _ _ why' s') as [o s2]. simpl in Hok. subst o.
    inversion Heff; subst; [done|]. by eapply Hheld.
  - pose proof (handle_effect e'
      (ApiBook (Some {| Api.j_doctor_id := Some did; Api.j_date := Api.JParsed d;
                        Api.j_time := Api.JParsed t; Api.j_reason := why' |})) s') as Heff.
    simpl in Heff. intros Hok.
    destruct (Api.appointments_post e' _ s') as [o s2]. simpl in Hok. subst o.
    inversion Heff; subst; [done|]. simpl in *. simplify_eq. by eapply Hheld.
  - intros Hu' Hday'.
    apply (book_rejects_booked_slot e' s' did d t why'
             (next_id (appointments s)) (Patient.new_appointment e did d t why));
      try done.
    eapply query_first_found; [exact Hv|exact Hcov].
Qed.

Lemma no_second_booking_witness :
  Patient.book_appointment (Scenario.as_user patient 2 Scenario.day100_0800) 7
    (Parsed 101) (Parsed 540) None Scenario.booked_store
  = (SlotTaken, Scenario.booked_store).
Proof.
  pose (open_store := run [Scenario.open_0900_1000] Scenario.clinic).
  assert (Hbooked : Patient.book_appointment
                      (Scenario.as_user patient 1 Scenario.day100_0800) 7
                      (Parsed 101) (Parsed 540) (Some "checkup"%string) open_store
                    = (Ok, Scenario.booked_store))
    by (vm_compute; reflexivity).
  destruct (no_second_booking _ _ _ _ _ _ _ Hbooked
              (Scenario.as_user patient 2 Scenario.day100_0800) None)
    as (_ & _ & Htaken).
  apply Htaken; [reflexivity|vm_compute; discriminate].
Defined.

(** X8: for an active doctor with a non-zero id, the API's POST answers
    a body whose date and time are what a form sends (nothing, a string
    that does not parse, a string that parses) as the patient's form
    answers it, and leaves the same store. A body that no form sends,
    with a date or a time that is a truthy JSON value but no string,
    makes [strptime] raise [TypeError]: a patient who sends such a date
    with a time that is not falsy, or such a time with a date that
    parses, is answered 500 after the rollback and the store is as it
    was. *)
Theorem api_books_like_form (e : Env) (did : nat) (why : option string) (s : Store) :
  doctors s !! did = Some true →
  did ≠ 0%nat →
  (∀ f_date f_time : Field Z,
     Api.appointments_post e
       (Some {| Api.j_doctor_id := Some did; Api.j_date := Api.of_form f_date;
                Api.j_time := Api.of_form f_time; Api.j_reason := why |}) s
     = Patient.book_appointment e did f_date f_time why s)
  ∧ (user_type e = patient →
     (∀ j_time : Api.JsonField Z,
        j_time ≠ Api.JFalsy →
        Api.appointments_post e
          (Some {| Api.j_doctor_id := Some did; Api.j_date := Api.JNotString;
                   Api.j_time := j_time; Api.j_reason := why |}) s
        = (StorageError, s))
     ∧ (∀ d : Z,
          Api.appointments_post e
            (Some {| Api.j_doctor_id := Some did; Api.j_date := Api.JParsed d;
                     Api.j_time := Api.JNotString; Api.j_reason := why |}) s
          = (StorageError, s))).
Proof.
  intros Hdoc Hdid. destruct did as [|n]; [done|].
  unfold Api.appointments_post, Patient.book_appointment, is_authenticated. simpl. rewrite Hdoc.
  split.
  - intros f_date f_time.
    destruct (bool_decide (user_type e = patient)); simpl; [|done].
    destruct f_date, f_time; done.
  - intros ->. simpl. split; [|done].
    intros j_time Htime. by destruct j_time.
Qed.

Lemma api_books_like_form_witness :
  Api.appointments_post (Scenario.as_user patient 2 Scenario.day100_0800)
    (Some {| Api.j_doctor_id := Some 7%nat; Api.j_date := Api.JParsed 101;
             Api.j_time := Api.JParsed 570; Api.j_reason := None |}) Scenario.booked_store
  = Patient.book_appointment (Scenario.as_user patient 2 Scenario.day100_0800) 7
      (Parsed 101) (Parsed 570) None Scenario.booked_store
  ∧ Api.appointments_post (Scenario.as_user patient 2 Scenario.day100_0800)
      (Some {| Api.j_doctor_id := Some 7%nat; Api.j_date := Api.JNotString;
               Api.j_time := Api.JParsed 570; Api.j_reason := None |}) Scenario.booked_store
    = (StorageError, Scenario.booked_store).
Proof.
  destruct (api_books_like_form (Scenario.as_user patient 2 Scenario.day100_0800) 7
              None Scenario.booked_store) as [Hform Hjson].
  - vm_compute. reflexivity.
  - lia.
  - split.
    + exact (Hform (Parsed 101) (Parsed 570)).
    + apply (proj1 (Hjson eq_refl) (Api.JParsed 570)). discriminate.
Defined.

(** ** Availability *)

Lemma overlaps_spec (did : nat) (d st en : Z) (k : nat) (v : DoctorAvailability) :
  Doctor.overlaps did d st en k v = true
  ↔ av_doctor_id v = did ∧ available_date v = d
    ∧ (start_time v ≤ st < end_time v ∨ start_time v < en ≤ end_time v).
Proof.
  unfold Doctor.overlaps.
  rewrite !andb_true_iff, orb_true_iff, !andb_true_iff, bool_decide_eq_true,
    Z.eqb_eq, !Z.leb_le, !Z.ltb_lt. tauto.
Qed.

Lemma add_availability_parsed (e : Env) (d st en : Z) (s : Store) :
  is_authenticated e s = true → user_type e = doctor → st < en → today e ≤ d →
  Doctor.add_availability e (Parsed d) (Parsed st) (Parsed en) s
  = match query_first (Doctor.overlaps (user_id e) d st en) (availability s) with
    | Some _ => (Overlap, s)
    | None =>
      commit e s (with_availability s
        (add_row {| av_doctor_id := user_id e; available_date := d;
                    start_time := st; end_time := en;
                    is_available := true; av_created_at := utcnow e |}
                 (availability s)))
    end.
Proof.
  intros Hin Hu Hlt Hday. unfold Doctor.add_availability. rewrite Hin, Hu. simpl.
  destruct (Z.leb_spec en st); [lia|]. destruct (Z.ltb_spec d (today e)); [lia|]. done.
Qed.

(** X9: for a doctor, a range that ends after it starts and a date that
    is not past, the route answers Overlap exactly when the doctor is
    logged in (the doctor's row exists and is active) and a slot of this
    doctor on this date intersects the new interval without lying
    strictly inside it; in every other case of a doctor who is logged in
    it goes on to the insert. *)
Theorem overlap_answer (e : Env) (d st en : Z) (s : Store) :
  user_type e = doctor → st < en → today e ≤ d →
  ((Doctor.add_availability e (Parsed d) (Parsed st) (Parsed en) s).1 = Overlap
   ↔ is_authenticated e s = true
     ∧ ∃ k v, availability s !! k = Some v
              ∧ av_doctor_id v = user_id e ∧ available_date v = d
              ∧ (st < end_time v ∧ start_time v < en)
              ∧ ¬ (st < start_time v ∧ end_time v < en)).
Proof.
  intros Hu Hlt Hday.
  destruct (is_authenticated e s) eqn:Hin;
    [|unfold Doctor.add_availability; rewrite Hin; simpl; split; [done|by intros [? _]]].
  rewrite (add_availability_parsed e d st en s Hin Hu Hlt Hday).
  destruct (query_first _ _) as [r|] eqn:Hq; simpl.
  - split; [intros _|done]. split; [done|]. apply query_first_Some in Hq as [Hrow Hov].
    apply overlaps_spec in Hov as (Hdoc & Hdate & Hmeet).
    exists r.1, r.2. repeat split; try done; lia.
  - split; [unfold commit; by destruct (db_ok e)|].
    intros (_ & k & v & Hv & Hdoc & Hdate & Hmeet & Hinner).
    rewrite query_first_None in Hq. specialize (Hq k v Hv).
    rewrite (proj2 (overlaps_spec _ _ _ _ _ _)) in Hq; [done|].
    repeat split; try done. lia.
Qed.

(** Doctor 7 has opened [09:00, 10:00) on day 101 and asks for
    [09:30, 10:30). *)
Lemma overlap_answer_witness :
  (Doctor.add_availability (Scenario.as_user doctor 7 Scenario.day100_0800)
     (Parsed 101) (Parsed 570) (Parsed 630) Scenario.booked_store).1 = Overlap.
Proof.
  apply (overlap_answer (Scenario.as_user doctor 7 Scenario.day100_0800) 101 570 630
           Scenario.booked_store); [reflexivity|reflexivity|vm_compute; discriminate|].
  split; [vm_compute; reflexivity|].
  exists 1%nat, {| av_doctor_id := 7; available_date := 101; start_time := 540;
                   end_time := 600; is_available := true;
                   av_created_at := Scenario.day100_0800 |}.
  split; [vm_compute; reflexivity|]. simpl. lia.
Defined.



(** X11: a slot that its doctor deletes is gone while every other slot,
    every appointment (also one booked inside the deleted slot) and every
    treatment stays; a later booking of that doctor and date at a time
    that no remaining slot covers is answered NoAvailability. *)
Theorem deleted_slot_closes_bookings (e : Env) (id : nat) (s s' : Store) :
  Doctor.delete_availability e id s = (Ok, s') →
  ∃ v, availability s !! id = Some v
       ∧ user_type e = doctor ∧ av_doctor_id v = user_id e
       ∧ availability s' !! id = None
       ∧ (∀ k, k ≠ id → availability s' !! k = availability s !! k)
       ∧ appointments s' = appointments s ∧ treatments s' = treatments s
       ∧ ∀ (e' : Env) (t : Z) (why : option string),
           user_type e' = patient →
           doctors s !! user_id e = Some true →
           today e' ≤ available_date v →
           (∀ k v', k ≠ id → availability s !! k = Some v' →
                    covers (user_id e) (available_date v) t k v' = false) →
           Patient.book_appointment e' (user_id e)
             (Parsed (available_date v)) (Parsed t) why s' = (NoAvailability, s').
Proof.
  intros Hrun. pose proof (handle_effect e (DoctorDeleteAvailability id) s) as Heff.
  simpl in Heff. rewrite Hrun in Heff. inversion Heff; subst; [done|].
  exists v. simpl. repeat split; try done.
  - apply lookup_delete_eq.
  - intros k Hne. by apply lookup_delete_ne.
  - intros e' t why Hu' Hdoc Hday' Hnone.
    unfold Patient.book_appointment, is_authenticated. rewrite Hu'. simpl. rewrite Hdoc. simpl.
    destruct (Z.ltb_spec (available_date v) (today e')); [lia|].
    rewrite (proj2 (query_first_None _ _)); [done|].
    intros k v' Hv'. apply lookup_delete_Some in Hv' as [Hne Hv']. by apply (Hnone k).
Qed.

(** Appointment 1 is booked at 09:00 inside the only slot; the doctor
    deletes the slot and the appointment stays. *)
Lemma deleted_slot_closes_bookings_witness :
  appointments
    (Doctor.delete_availability (Scenario.as_user doctor 7 Scenario.day100_0800) 1
       Scenario.booked_store).2
  = appointments Scenario.booked_store.
Proof.
  destruct (deleted_slot_closes_bookings (Scenario.as_user doctor 7 Scenario.day100_0800) 1
              Scenario.booked_store
              (Doctor.delete_availability (Scenario.as_user doctor 7 Scenario.day100_0800) 1
                 Scenario.booked_store).2)
    as (v & _ & _ & _ & _ & _ & Happ & _); [vm_compute; reflexivity|].
  exact Happ.
Defined.

(** ** Who may change an appointment *)

Lemma may_access_stranger (e : Env) (a : Appointment) :
  (user_type e = patient ∧ patient_id a ≠ user_id e)
  ∨ (user_type e = doctor ∧ doctor_id a ≠ user_id e) →
  Api.may_access e a = false.
Proof.
  unfold Api.may_access. intros [[-> Hne]|[-> Hne]]; by apply bool_decide_eq_false.
Qed.

(** X12: a patient who is not the appointment's patient and a doctor who
    is not its doctor cannot change it through any route: every request
    about the appointment is refused and leaves the store as it was. *)
Theorem strangers_change_nothing (e : Env) (r : Request) (s : Store)
    (id : nat) (a : Appointment) :
  target r = Some id →
  appointments s !! id = Some a →
  (user_type e = patient ∧ patient_id a ≠ user_id e)
  ∨ (user_type e = doctor ∧ doctor_id a ≠ user_id e) →
  (handle e r s).1 ≠ Ok ∧ (handle e r s).2 = s.
Proof.
  intros Htarget Ha Hstranger.
  pose proof (may_access_stranger e a Hstranger) as Hno.
  pose proof (handle_effect e r s) as Heff.
  destruct (handle e r s) as [o s']. simpl.
  inversion Heff; subst; simpl in Htarget; simplify_eq; try done;
    destruct Hstranger as [[Hu Hne]|[Hu Hne]]; congruence.
Qed.

(** Patient 2 tries to cancel the appointment of patient 1. *)
Lemma strangers_change_nothing_witness :
  (handle (Scenario.as_user patient 2 Scenario.day100_0800) (PatientCancel 1)
     Scenario.booked_store).2 = Scenario.booked_store.
Proof.
  apply (strangers_change_nothing (Scenario.as_user patient 2 Scenario.day100_0800)
           (PatientCancel 1) Scenario.booked_store 1
           (Patient.new_appointment (Scenario.as_user patient 1 Scenario.day100_0800)
              7 101 540 (Some "checkup"%string))).
  - reflexivity.
  - vm_compute. reflexivity.
  - left. split; [reflexivity|discriminate].
Defined.

(** ** Confirm, cancel, complete *)

(** X13: the doctor's confirm has no status test: for the assigned
    doctor, logged in (the doctor's row exists and is active), it
    succeeds from every status when the commit goes through, also from
    cancelled and completed, and leaves the appointment confirmed and
    the treatments as they were; from then on the cancel and the
    reschedule of the owning patient are refused. *)
Theorem confirm_from_any_status (e : Env) (id : nat) (s : Store) (a : Appointment) :
  is_authenticated e s = true →
  user_type e = doctor →
  appointments s !! id = Some a →
  doctor_id a = user_id e →
  db_ok e = true →
  (Doctor.confirm_appointment e id s).1 = Ok
  ∧ status_of (Doctor.confirm_appointment e id s).2 id = Some (Some "confirmed"%string)
  ∧ treatments (Doctor.confirm_appointment e id s).2 = treatments s
  ∧ ∀ e' : Env,
      user_type e' = patient → patient_id a = user_id e' →
      Patient.cancel_appointment e' id (Doctor.confirm_appointment e id s).2
      = (InvalidTransition, (Doctor.confirm_appointment e id s).2)
      ∧ ∀ f_date f_time,
          Patient.reschedule_appointment e' id f_date f_time
            (Doctor.confirm_appointment e id s).2
          = (InvalidTransition, (Doctor.confirm_appointment e id s).2).
Proof.
  intros Hin Hu Ha Hown Hdb.
  assert (Hrow : ∃ a', appointments (Doctor.confirm_appointment e id s).2 !! id = Some a'
                       ∧ status a' = Some "confirmed"%string
                       ∧ patient_id a' = patient_id a
                       ∧ (Doctor.confirm_appointment e id s).1 = Ok
                       ∧ treatments (Doctor.confirm_appointment e id s).2 = treatments s).
  { unfold Doctor.confirm_appointment, commit. rewrite Hin, Hu, Ha, Hdb. simpl.
    rewrite (bool_decide_eq_true_2 _ Hown).
    destruct (status_is a "confirmed") eqn:Hst; simpl.
    - exists a. by apply status_is_Some in Hst.
    - eexists. rewrite lookup_insert_eq. done. }
  destruct Hrow as (a' & Ha' & Hst' & Hpat & Hok & Htr).
  repeat split; try done.
  - unfold status_of. by rewrite Ha', <- Hst'.
  - apply (patient_routes_need_booked e' _ id a'); try done; congruence.
  - apply (patient_routes_need_booked e' _ id a'); try done; congruence.
Qed.

(** The completed appointment 1 is confirmed again by doctor 7. *)
Lemma confirm_from_any_status_witness :
  status_of Scenario.completed_store 1 = Some (Some "completed"%string)
  ∧ status_of (Doctor.confirm_appointment (Scenario.as_user doctor 7 Scenario.day100_0800)
                 1 Scenario.completed_store).2 1
    = Some (Some "confirmed"%string).
Proof.
  split; [vm_compute; reflexivity|].
  apply (confirm_from_any_status (Scenario.as_user doctor 7 Scenario.day100_0800) 1
           Scenario.completed_store
           (set_status (Some "completed"%string) Scenario.day100_0800
              (Patient.new_appointment (Scenario.as_user patient 1 Scenario.day100_0800)
                 7 101 540 (Some "checkup"%string))));
    [vm_compute; reflexivity|reflexivity|vm_compute; reflexivity|reflexivity|reflexivity].
Defined.





(** X16: after a complete request has succeeded, neither a second
    complete nor the doctor's cancel of the same appointment is accepted,
    whatever the caller and the form; the store stays, with its one
    treatment, and the assigned doctor is answered InvalidTransition. *)
Theorem completed_only_once (e : Env) (id : nat) (dg rx nt : option string)
    (required : bool) (f : Field Z) (s s' : Store) :
  Doctor.complete_appointment e id dg rx nt required f s = (Ok, s') →
  ∀ (e' : Env) (dg' rx' nt' : option string) (required' : bool) (f' : Field Z),
    (Doctor.complete_appointment e' id dg' rx' nt' required' f' s').1 ≠ Ok
    ∧ (Doctor.complete_appointment e' id dg' rx' nt' required' f' s').2 = s'
    ∧ (Doctor.cancel_appointment e' id s').1 ≠ Ok
    ∧ (Doctor.cancel_appointment e' id s').2 = s'
    ∧ (user_type e' = doctor → user_id e' = user_id e →
       Doctor.complete_appointment e' id dg' rx' nt' required' f' s'
       = (InvalidTransition, s')
       ∧ Doctor.cancel_appointment e' id s' = (InvalidTransition, s')).
Proof.
  intros Hrun e' dg' rx' nt' required' f'.
  pose proof (handle_effect e (DoctorComplete id dg rx nt required f) s) as Heff.
  simpl in Heff. rewrite Hrun in Heff. inversion Heff; subst; [done|].
  match goal with Hd : doctor_id a = user_id e |- _ => rename Hd into Hown end.
  match goal with Hl : is_authenticated e s = true |- _ => rename Hl into Hin end.
  match goal with Hd : user_type e = doctor |- _ => rename Hd into Hu end.
  set (a' := set_status (Some "completed"%string) (utcnow e) a).
  set (s' := Build_Store _ _ _ _).
  assert (Ha' : appointments s' !! id = Some a') by apply lookup_insert_eq.
  assert (Hclosed : status_in a' open_statuses = false)
    by (apply terminal_not_open; by left).
  unfold Doctor.complete_appointment, Doctor.cancel_appointment.
  rewrite Ha', Hclosed. simpl. split; [|split; [|split; [|split]]].
  - repeat case_match; done.
  - repeat case_match; done.
  - repeat case_match; done.
  - repeat case_match; done.
  - intros Hu' Hsame.
    assert (Hin' : is_authenticated e' s' = true).
    { unfold is_authenticated in *. rewrite Hu in Hin. rewrite Hu', Hsame. exact Hin. }
    rewrite Hin', Hu'. simpl.
    rewrite bool_decide_eq_true_2 by congruence. done.
Qed.

Lemma completed_only_once_witness :
  Doctor.complete_appointment (Scenario.as_user doctor 7 Scenario.day100_0800) 1
    (Some "cold"%string) None None false Missing Scenario.completed_store
  = (InvalidTransition, Scenario.completed_store).
Proof.
  assert (Hdone : Doctor.complete_appointment
                    (Scenario.as_user doctor 7 Scenario.day100_0800) 1
                    (Some "flu"%string) None None false Missing Scenario.booked_store
                  = (Ok, Scenario.completed_store))
    by (vm_compute; reflexivity).
  destruct (completed_only_once _ _ _ _ _ _ _ _ _ Hdone
              (Scenario.as_user doctor 7 Scenario.day100_0800)
              (Some "cold"%string) None None false Missing)
    as (_ & _ & _ & _ & Hagain).
  by apply Hagain.
Defined.

(** ** The API on one appointment *)

Lemma put_row_reason (e : Env) (data : gmap string string) (a : Appointment) :
  user_type e = doctor → reason (put_row e data a) = reason a.
Proof. intros Hu. unfold put_row. rewrite Hu. repeat case_match; done. Qed.

Lemma put_row_patient (e : Env) (data : gmap string string) (a : Appointment) :
  user_type e = patient → status (put_row e data a) = status a.
Proof. intros Hu. unfold put_row. rewrite Hu. repeat case_match; done. Qed.

Lemma put_row_schedule (e : Env) (data : gmap string string) (a : Appointment) :
  appointment_date (put_row e data a) = appointment_date a
  ∧ appointment_time (put_row e data a) = appointment_time a.
Proof. unfold put_row. repeat case_match; done. Qed.

(** X17: whatever body is sent, a PUT of the API keeps the row, its
    patient, doctor, date and time; it changes the status only from
    'booked' and only to 'completed' or 'cancelled'; sent by a patient it
    never changes the status, sent by a doctor it never changes the
    reason. *)
Theorem api_put_by_role (e : Env) (id : nat) (data : gmap string string)
    (s : Store) (a : Appointment) :
  appointments s !! id = Some a →
  ∃ a', appointments (Api.appointment_detail_put e id data s).2 !! id = Some a'
        ∧ patient_id a' = patient_id a ∧ doctor_id a' = doctor_id a
        ∧ appointment_date a' = appointment_date a
        ∧ appointment_time a' = appointment_time a
        ∧ (status a' = status a
           ∨ (status a = Some "booked"%string
              ∧ (status a' = Some "completed"%string
                 ∨ status a' = Some "cancelled"%string)))
        ∧ (user_type e = patient → status a' = status a)
        ∧ (user_type e = doctor → reason a' = reason a).
Proof.
  intros Ha. pose proof (handle_effect e (ApiPut id data) s) as Heff. simpl in Heff.
  destruct (Api.appointment_detail_put e id data s) as [o s']. simpl.
  inversion Heff; subst.
  - exists a. repeat split; try done. by left.
  - simplify_eq. exists (put_row e data a). simpl. rewrite lookup_insert_eq.
    destruct (put_row_identity e data a) as [Hid _]. unfold identity_columns in Hid.
    destruct (put_row_schedule e data a) as [Hd Ht].
    repeat split; try done; try congruence.
    + apply put_row_status.
    + by apply put_row_patient.
    + by apply put_row_reason.
Qed.

(** Patient 1 sends the status 'cancelled' for the own booked
    appointment 1. *)
Lemma api_put_by_role_witness :
  ∃ a', appointments
          (Api.appointment_detail_put (Scenario.as_user patient 1 Scenario.day100_0800) 1
             (Scenario.status_body "cancelled") Scenario.booked_store).2 !! 1%nat = Some a'
        ∧ status a' = Some "booked"%string.
Proof.
  destruct (api_put_by_role (Scenario.as_user patient 1 Scenario.day100_0800) 1
              (Scenario.status_body "cancelled") Scenario.booked_store
              (Patient.new_appointment (Scenario.as_user patient 1 Scenario.day100_0800)
                 7 101 540 (Some "checkup"%string)))
    as (a' & Ha' & _ & _ & _ & _ & _ & Hst & _); [vm_compute; reflexivity|].
  exists a'. split; [exact Ha'|]. by rewrite Hst.
Defined.



(** ** Deactivating a doctor *)

(** X19: when the administrator deactivates an active doctor, the
    appointments, the slots and the treatments stay as they were; every
    booking a patient sends for this doctor is answered DoctorInactive by
    the form and refused by the API; the doctor is no longer logged in,
    and every request this doctor sends is turned to the login and
    leaves the store; for every other caller the reschedule route, which
    does not read the doctor's flag, answers as before; a second toggle
    restores the store. *)
Theorem deactivated_doctor (e : Env) (did : nat) (s s' : Store) :
  toggle_doctor_status e did s = (Ok, s') →
  doctors s !! did = Some true →
  doctors s' !! did = Some false
  ∧ appointments s' = appointments s ∧ availability s' = availability s
  ∧ treatments s' = treatments s
  ∧ (∀ (e' : Env) f_date f_time why,
       user_type e' = patient →
       Patient.book_appointment e' did f_date f_time why s' = (DoctorInactive, s'))
  ∧ (∀ (e' : Env) f_date f_time why,
       (Api.appointments_post e'
          (Some {| Api.j_doctor_id := Some did; Api.j_date := f_date;
                   Api.j_time := f_time; Api.j_reason := why |}) s').1 ≠ Ok)
  ∧ (∀ (e' : Env) (r : Request),
       user_type e' = doctor → user_id e' = did →
       handle e' r s' = (LoginRequired, s'))
  ∧ (∀ (e' : Env) id f_date f_time,
       ¬ (user_type e' = doctor ∧ user_id e' = did) →
       (Patient.reschedule_appointment e' id f_date f_time s').1
       = (Patient.reschedule_appointment e' id f_date f_time s).1)
  ∧ toggle_doctor_status e did s' = (Ok, s).
Proof.
  intros Hrun Hactive. unfold toggle_doctor_status, commit in Hrun |- *.
  rewrite Hactive in Hrun.
  destruct (is_authenticated e s) eqn:Hin; simpl in Hrun; [|done].
  destruct (bool_decide_reflect (user_type e = admin)) as [Hu|]; simpl in Hrun; [|done].
  destruct (db_ok e) eqn:Hdb; [|done]. injection Hrun as <-. simpl.
  rewrite lookup_insert_eq. simpl.
  split; [done|]. split; [done|]. split; [done|]. split; [done|].
  split; [|split; [|split; [|split]]].
  - intros e' f_date f_time why Hu'. unfold Patient.book_appointment, is_authenticated.
    rewrite Hu'. simpl. by rewrite lookup_insert_eq.
  - intros e' f_date f_time why. unfold Api.appointments_post. simpl.
    destruct (is_authenticated e' _); simpl; [|done].
    destruct did as [|n]; simpl; [repeat case_match; done|].
    rewrite lookup_insert_eq. repeat case_match; done.
  - intros e' r Hu' Hid.
    match goal with |- handle _ _ ?s1 = _ =>
      assert (Hout : is_authenticated e' s1 = false)
        by (unfold is_authenticated; rewrite Hu', Hid; simpl; by rewrite lookup_insert_eq)
    end.
    destruct r; simpl;
      unfold Patient.book_appointment, Patient.cancel_appointment,
        Patient.reschedule_appointment, Doctor.complete_appointment,
        Doctor.cancel_appointment, Doctor.confirm_appointment, Doctor.add_availability,
        Doctor.delete_availability, Admin.update_appointment_status,
        Api.appointments_post, Api.appointment_detail_put, Api.appointment_detail_delete;
      by rewrite Hout.
  - intros e' id f_date f_time Hother.
    match goal with |- (Patient.reschedule_appointment _ _ _ _ ?s1).1 = _ =>
      assert (Hlogin : is_authenticated e' s1 = is_authenticated e' s)
    end.
    { unfold is_authenticated. destruct (user_type e') eqn:Hu'; try done. simpl.
      rewrite lookup_insert_ne; [done|]. intros Heq. by apply Hother. }
    unfold Patient.reschedule_appointment, commit. rewrite Hlogin. simpl.
    repeat case_match; done.
  - unfold is_authenticated. rewrite Hu. simpl.
    rewrite insert_insert_eq, (insert_id _ _ _ Hactive). by destruct s.
Qed.

Lemma deactivated_doctor_witness :
  Patient.book_appointment (Scenario.as_user patient 2 Scenario.day100_0800) 7
    (Parsed 101) (Parsed 570) None
    (toggle_doctor_status (Scenario.as_user admin 1 Scenario.day100_0800) 7
       Scenario.booked_store).2
  = (DoctorInactive,
     (toggle_doctor_status (Scenario.as_user admin 1 Scenario.day100_0800) 7
        Scenario.booked_store).2).
Proof.
  destruct (deactivated_doctor (Scenario.as_user admin 1 Scenario.day100_0800) 7
              Scenario.booked_store
              (toggle_doctor_status (Scenario.as_user admin 1 Scenario.day100_0800) 7
                 Scenario.booked_store).2)
    as (_ & _ & _ & _ & Hbook & _); [vm_compute; reflexivity|vm_compute; reflexivity|].
  by apply Hbook.
Defined.

(** ** Ages *)

Lemma month_day_lt_spec (a b : CalendarDate) :
  month_day_lt a b = true
  ↔ month a < month b ∨ (month a = month b ∧ day a < day b).
Proof.
  unfold month_day_lt.
  rewrite orb_true_iff, andb_true_iff, !Z.ltb_lt, Z.eqb_eq. tauto.
Qed.

(** X20: the template filter [age] and the model property [Patient.age]
    give the same age for the same birth date, whether the filter is
    handed a date, a datetime or a string that parses; the filter gives
    none for no date and for a string that does not parse. *)
Theorem template_age_agrees (dob today : CalendarDate) (time_of_day : Z) :
  calculate_age (BirthDay dob) today = age (Some dob) today
  ∧ calculate_age (BirthDateTime dob time_of_day) today = age (Some dob) today
  ∧ calculate_age (BirthStr (Parsed dob)) today = age (Some dob) today
  ∧ calculate_age BirthNone today = age None today
  ∧ calculate_age (BirthStr Missing) today = None
  ∧ calculate_age (BirthStr Malformed) today = None.
Proof.
  assert (Hsame : ∀ y, (if month_day_lt today dob then Some (y - 1) else Some y)
                       = Some (y - (if month_day_lt today dob then 1 else 0))).
  { intros y. destruct (month_day_lt today dob); f_equal; lia. }
  unfold calculate_age, age. fold (month_day_lt today dob).
  rewrite Hsame. done.
Qed.

(** X21: the age is the number of birthdays reached: [n] is the age
    exactly when the [n]-th birthday is not after today and the next one
    is; so the age of a person born today or earlier is not negative. *)
Theorem age_counts_birthdays (dob today : CalendarDate) (n : Z) :
  (age (Some dob) today = Some n
   ↔ date_le (birthday dob n) today ∧ ¬ date_le (birthday dob (n + 1)) today)
  ∧ (date_le dob today → age (Some dob) today = Some n → 0 ≤ n).
Proof.
  unfold age, date_le, birthday. simpl.
  destruct (month_day_lt today dob) eqn:Hlt.
  - apply month_day_lt_spec in Hlt. split.
    + split; [intros [= <-]; lia|intros [H1 H2]; f_equal; lia].
    + intros Hle [= <-]. lia.
  - assert (Hge : ¬ (month today < month dob
                     ∨ (month today = month dob ∧ day today < day dob)))
      by (rewrite <- month_day_lt_spec; congruence).
    split.
    + split; [intros [= <-]; lia|intros [H1 H2]; f_equal; lia].
    + intros Hle [= <-]. lia.
Qed.

(** ** The API's list of appointments *)

#[global] Instance later_first_total : Total later_first.
Proof. intros r1 r2. unfold later_first. lia. Qed.

#[global] Instance later_first_trans : Transitive later_first.
Proof. intros r1 r2 r3. unfold later_first. lia. Qed.



(** ** The doctor's page *)

Lemma status_counts_once (a : Appointment) :
  ((if status_in a open_statuses then 1 else 0)
   + (if status_is a "completed" then 1 else 0)
   + (if status_is a "cancelled" then 1 else 0) ≤ 1)%nat
  ∧ (status_in a written_statuses = true →
     ((if status_in a open_statuses then 1 else 0)
      + (if status_is a "completed" then 1 else 0)
      + (if status_is a "cancelled" then 1 else 0) = 1)%nat).
Proof.
  unfold status_in, open_statuses, written_statuses, status_is. simpl.
  repeat case_bool_decide; simpl; split; try lia; try congruence; try done.
Qed.

Lemma count_rows_cons (test : Appointment → bool) (r : nat * Appointment) rows :
  count_rows test (r :: rows) = ((if test r.2 then 1 else 0) + count_rows test rows)%nat.
Proof. unfold count_rows. simpl. by destruct (test r.2). Qed.

Lemma count_rows_le (test : Appointment → bool) (rows : list (nat * Appointment)) :
  (count_rows test rows ≤ length rows)%nat.
Proof. unfold count_rows. apply filter_length_le. Qed.

Lemma status_counts_add_up (rows : list (nat * Appointment)) :
  (count_rows (λ a, status_in a open_statuses) rows
   + count_rows (λ a, status_is a "completed") rows
   + count_rows (λ a, status_is a "cancelled") rows ≤ length rows)%nat
  ∧ ((∀ r, r ∈ rows → status_in r.2 written_statuses = true) →
     (count_rows (λ a, status_in a open_statuses) rows
      + count_rows (λ a, status_is a "completed") rows
      + count_rows (λ a, status_is a "cancelled") rows = length rows)%nat).
Proof.
  induction rows as [|r rows [IHle IHeq]]; [done|].
  rewrite !count_rows_cons. simpl.
  destruct (status_counts_once r.2) as [Hle Heq]. split; [lia|].
  intros Hall. specialize (Heq (Hall r ltac:(left))).
  specialize (IHeq (λ r' Hr', Hall r' ltac:(by right))). lia.
Qed.

(** X23: on the doctor's page every listed appointment is the doctor's
    own; the counters of scheduled, completed and cancelled appointments
    never add up to more than the number of rows listed, and add up to
    exactly that number when every status is one of the four labels the
    routes write; the counter of today's appointments is at most the
    number of rows. *)
Theorem doctor_page_counts (e : Env) (status_filter : option string)
    (date_filter : Field Z) (s : Store) (p : DoctorPage) :
  doctor_appointments e status_filter date_filter s = inr p →
  (∀ r, r ∈ page_rows p →
        appointments s !! r.1 = Some r.2 ∧ doctor_id r.2 = user_id e)
  ∧ (scheduled_count p + completed_count p + cancelled_count p
     ≤ length (page_rows p))%nat
  ∧ (today_count p ≤ length (page_rows p))%nat
  ∧ (statuses_written s →
     (scheduled_count p + completed_count p + cancelled_count p
      = length (page_rows p))%nat).
Proof.
  unfold doctor_appointments. intros Hpage.
  destruct (is_authenticated e s); simpl in Hpage; [|done].
  destruct (bool_decide (user_type e = doctor)); simpl in Hpage; [|done].
  assert (Hrows : ∀ f : nat * Appointment → bool,
            (∀ r, f r = true → doctor_id r.2 = user_id e) →
            ∀ r, r ∈ merge_sort later_first (List.filter f (map_to_list (appointments s))) →
                 appointments s !! r.1 = Some r.2 ∧ doctor_id r.2 = user_id e).
  { intros f Hf r. rewrite merge_sort_Permutation, list_elem_of_In, filter_In,
      <- list_elem_of_In. destruct r as [id a]. rewrite elem_of_map_to_list.
    intros [Hrow Hfr]. split; [done|]. by apply (Hf (id, a)). }
  assert (Hown : ∀ r : nat * Appointment,
            bool_decide (doctor_id r.2 = user_id e) && passes_status status_filter r.2
            && passes_date date_filter r.2 = true → doctor_id r.2 = user_id e).
  { intros r. rewrite !andb_true_iff, bool_decide_eq_true. tauto. }
  destruct date_filter as [| |d]; [|done|]; injection Hpage as <-; simpl;
    (split; [by apply Hrows|]);
    (split; [apply status_counts_add_up|]);
    (split; [apply count_rows_le|]);
    intros Hall; apply status_counts_add_up;
    intros r Hr; apply (Hrows _ Hown) in Hr as [Hrow _]; by apply (Hall r.1).
Qed.

(** Doctor 7 looks at the page after appointment 1 was completed. *)
Lemma doctor_page_counts_witness :
  ∃ p, doctor_appointments (Scenario.as_user doctor 7 Scenario.day100_0800) None Missing
         Scenario.completed_store = inr p
       ∧ (scheduled_count p + completed_count p + cancelled_count p
          ≤ length (page_rows p))%nat.
Proof.
  eexists. split; [vm_compute; reflexivity|].
  eapply (doctor_page_counts (Scenario.as_user doctor 7 Scenario.day100_0800) None Missing
            Scenario.completed_store).
  vm_compute. reflexivity.
Defined.

(** ** Patient accounts *)

Section AccountProperties.
Variable hash : string → string.

Lemma username_taken_false (u : string) (t : gmap nat PatientRow) :
  username_taken u t = false → ∀ i p, t !! i = Some p → username p ≠ u.
Proof.
  unfold username_taken. intros Hno%bool_decide_eq_false i p Hp Hu.
  apply Hno. eapply query_first_found; [exact Hp|]. by apply bool_decide_eq_true.
Qed.

Lemma email_taken_false (m : string) (t : gmap nat PatientRow) :
  email_taken m t = false → ∀ i p, t !! i = Some p → email p ≠ m.
Proof.
  unfold email_taken. intros Hno%bool_decide_eq_false i p Hp Hm.
  apply Hno. eapply query_first_found; [exact Hp|]. by apply bool_decide_eq_true.
Qed.

Lemma accounts_unique_add (t : gmap nat PatientRow) (row : PatientRow) :
  accounts_unique t →
  username_taken (username row) t = false →
  email_taken (email row) t = false →
  accounts_unique (add_row row t).
Proof.
  intros Huniq Hu Hm i j p q Hp Hq Heq.
  pose proof (username_taken_false _ _ Hu) as Hfree_u.
  pose proof (email_taken_false _ _ Hm) as Hfree_m.
  rewrite lookup_add_row in Hp, Hq.
  destruct (decide (i = next_id t)) as [->|Hi], (decide (j = next_id t)) as [->|Hj];
    [done|..].
  - injection Hp as <-. destruct Heq as [Heq|Heq].
    + by destruct (Hfree_u j q Hq).
    + by destruct (Hfree_m j q Hq).
  - injection Hq as <-. destruct Heq as [Heq|Heq].
    + by destruct (Hfree_u i p Hp).
    + by destruct (Hfree_m i p Hp).
  - by apply (Huniq i j p q).
Qed.

Lemma py_len_le_length (s : string) : (py_len s ≤ String.length s)%nat.
Proof. induction s as [|c s IH]; simpl; [done|]. destruct (continuation c); lia. Qed.

(** X24: registration and the administrator's add-patient form keep
    usernames and emails unique: from a table in which no two accounts
    share a username or an email, the table after either request has
    that property too, whatever the form. *)
Theorem accounts_stay_unique (logged_in is_admin commit_ok : bool) (utc : Z)
    (f : PatientForm) (t : gmap nat PatientRow) :
  accounts_unique t →
  accounts_unique (register hash logged_in utc commit_ok f t).2
  ∧ accounts_unique (add_patient hash is_admin utc commit_ok f t).2.
Proof.
  intros Huniq. unfold register, add_patient. split.
  - repeat case_match; simpl; try done. by apply accounts_unique_add.
  - repeat case_match; simpl; try done. by apply accounts_unique_add.
Qed.

(** X25: a registration that succeeds came from a visitor who is not
    logged in, with a password of at least 6 characters (so of at least
    6 bytes) that equals its confirmation and a username and an email
    that no account had; it adds one active account under a new id,
    which stores the hash of the password, and keeps every other
    account. *)
Theorem accepted_registration (utc : Z) (logged_in commit_ok : bool)
    (f : PatientForm) (t t' : gmap nat PatientRow) :
  register hash logged_in utc commit_ok f t = (Registered, t') →
  ∃ u m pw row,
    logged_in = false
    ∧ f_username f = Some u ∧ f_email f = Some m
    ∧ f_password f = Some pw ∧ f_confirm_password f = Some pw
    ∧ (6 ≤ py_len pw)%nat ∧ (6 ≤ String.length pw)%nat
    ∧ (∀ i p, t !! i = Some p → username p ≠ u ∧ email p ≠ m)
    ∧ t !! next_id t = None
    ∧ t' = <[next_id t := row]> t
    ∧ username row = u ∧ email row = m ∧ password_hash row = hash pw
    ∧ patient_is_active row = true.
Proof.
  unfold register. intros Hrun.
  destruct logged_in; [done|].
  destruct (filled (f_username f)) as [u|] eqn:Hu; [|done].
  destruct (filled (f_email f)) as [m|] eqn:Hm; [|done].
  destruct (filled (f_full_name f)) as [n|] eqn:Hn; [|done].
  destruct (filled (f_password f)) as [pw|] eqn:Hpw; [|done].
  destruct (filled (f_confirm_password f)) as [pw2|] eqn:Hpw2; [|done].
  destruct (bool_decide_reflect (pw = pw2)) as [<-|]; simpl in Hrun; [|done].
  destruct (Nat.ltb_spec (py_len pw) 6) as [|Hlong]; [done|].
  pose proof (py_len_le_length pw) as Hbytes.
  destruct (username_taken u t) eqn:Hut; [done|].
  destruct (email_taken m t) eqn:Hmt; [done|].
  destruct (parse_birth (f_date_of_birth f)) as [dob|]; [|done].
  destruct commit_ok; [|done]. injection Hrun as <-.
  assert (Hfilled : ∀ o v, filled o = Some v → o = Some v).
  { intros [x|] v; simpl; [|done]. by case_bool_decide. }
  exists u, m, pw, (new_patient hash utc u m n pw dob f (f_allergies f)).
  repeat split; try done; try (by apply Hfilled).
  - lia.
  - by eapply username_taken_false.
  - by eapply email_taken_false.
  - apply next_id_fresh.
Qed.

(** X26: the administrator's form has no test of the password's length:
    for a form whose password registration rejects as too short (fewer
    than 6 characters), it creates the account as soon as the date of
    birth parses, the commit goes through and the username and email are
    free. *)
Theorem admin_accepts_short_password (utc : Z) (f : PatientForm)
    (t : gmap nat PatientRow) :
  register hash false utc true f t = (PasswordTooShort, t) →
  username_taken (default EmptyString (f_username f)) t = false →
  email_taken (default EmptyString (f_email f)) t = false →
  parse_birth (f_date_of_birth f) ≠ None →
  ∃ pw, f_password f = Some pw ∧ (py_len pw < 6)%nat
        ∧ (add_patient hash true utc true f t).1 = Registered
        ∧ ∃ row, (add_patient hash true utc true f t).2 !! next_id t = Some row
                 ∧ password_hash row = hash pw.
Proof.
  unfold register, add_patient. intros Hrun Hut Hmt Hdob. simpl in *.
  assert (Hfilled : ∀ o v, filled o = Some v → o = Some v).
  { intros [x|] v; simpl; [|done]. by case_bool_decide. }
  destruct (filled (f_username f)) as [u|] eqn:Hu; [|done].
  destruct (filled (f_email f)) as [m|] eqn:Hm; [|done].
  destruct (filled (f_full_name f)) as [n|] eqn:Hn; [|done].
  destruct (filled (f_password f)) as [pw|] eqn:Hpw; [|done].
  destruct (filled (f_confirm_password f)) as [pw2|] eqn:Hpw2; [|done].
  destruct (bool_decide (pw = pw2)); simpl in Hrun; [|done].
  destruct (Nat.ltb_spec (py_len pw) 6) as [Hshort|]; [|repeat case_match; done].
  rewrite (Hfilled _ _ Hu) in Hut. rewrite (Hfilled _ _ Hm) in Hmt. simpl in Hut, Hmt.
  rewrite Hut, Hmt.
  destruct (parse_birth (f_date_of_birth f)) as [dob|]; [|done].
  exists pw. split; [by apply Hfilled|]. split; [done|]. split; [done|].
  eexists. simpl. unfold add_row. by rewrite lookup_insert_eq.
Qed.

End AccountProperties.

(** Alice registers, then Bob: the table of the two accounts. *)
Lemma accounts_stay_unique_witness :
  accounts_unique
    (register AccountScenario.tagged_hash false 0 true (AccountScenario.bob "secret1")
       (register AccountScenario.tagged_hash false 0 true
          (AccountScenario.alice "longpass") ∅).2).2.
Proof.
  apply (accounts_stay_unique AccountScenario.tagged_hash false true true 0
           (AccountScenario.bob "secret1")
           (register AccountScenario.tagged_hash false 0 true
              (AccountScenario.alice "longpass") ∅).2).
  apply (accounts_stay_unique AccountScenario.tagged_hash false true true 0
           (AccountScenario.alice "longpass") ∅).
  intros i j p q Hp. by rewrite lookup_empty in Hp.
Defined.

(** Three accented letters are six bytes and three characters:
    registration refuses the password, and accepts six of them. *)
Lemma accented_password :
  let pw3 := (AccountScenario.e_acute +:+ AccountScenario.e_acute
              +:+ AccountScenario.e_acute)%string in
  String.length pw3 = 6%nat
  ∧ py_len pw3 = 3%nat
  ∧ (register AccountScenario.tagged_hash false 0 true (AccountScenario.alice pw3) ∅).1
    = PasswordTooShort
  ∧ (register AccountScenario.tagged_hash false 0 true
       (AccountScenario.alice (pw3 +:+ pw3)%string) ∅).1
    = Registered.
Proof. vm_compute. repeat split; reflexivity. Qed.

Lemma accepted_registration_witness :
  ∃ row, (register AccountScenario.tagged_hash false 0 true
            (AccountScenario.alice "longpass") ∅).2 = <[1%nat := row]> ∅
         ∧ username row = "alice"%string
         ∧ password_hash row = "hash:longpass"%string.
Proof.
  destruct (accepted_registration AccountScenario.tagged_hash 0 false true
              (AccountScenario.alice "longpass") ∅
              (register AccountScenario.tagged_hash false 0 true
                 (AccountScenario.alice "longpass") ∅).2)
    as (u & m & pw & row & _ & Hu & _ & Hpw & _ & _ & _ & _ & _ & Ht' & Hru & _ & Hrh & _);
    [vm_compute; reflexivity|].
  exists row. injection Hu as <-. injection Hpw as <-. by rewrite Hru, Hrh.
Defined.

Lemma admin_accepts_short_password_witness :
  (register AccountScenario.tagged_hash false 0 true (AccountScenario.alice "abc") ∅).1
  = PasswordTooShort
  ∧ (add_patient AccountScenario.tagged_hash true 0 true (AccountScenario.alice "abc") ∅).1
    = Registered.
Proof.
  split; [vm_compute; reflexivity|].
  destruct (admin_accepts_short_password AccountScenario.tagged_hash 0
              (AccountScenario.alice "abc") ∅)
    as (pw & _ & _ & Hok & _);
    [vm_compute; reflexivity|vm_compute; reflexivity|vm_compute; reflexivity
    |vm_compute; discriminate|exact Hok].
Defined.
